(** * spider_craw: content filter and navigation extractor

    Shallow embedding of [content_filter.py] and
    [enhanced_navigation_extractor.py], and the properties of the
    filtering and navigation-extraction core proved over it.

    Conventions.
    - A Python [str] is a Rocq [string] holding its UTF-8 encoding.
      Equality, concatenation, the substring test and [len] (which
      counts characters, not bytes) are those of Python; [lower] and
      [strip] are Python's on the text [Py.is_plain] accepts (ASCII and
      the uncased ranges listed there, which hold the Chinese keywords
      of the catalog), and the statements that depend on them say so.
    - A Python [dict] with a fixed set of keys is a [Record]; a [set] of
      strings is a [gset string]; a [dict] keyed by integers is a [gmap].
    - Code that may raise returns [result]; [Raise e] is an exception
      escaping the function. *)

From Stdlib Require Import Ascii.
From stdpp Require Import gmap strings list sorting.

Set Warnings "-clear-no-such-hyp,-register-all".

(** ** Python run-time values *)

(** Exceptions that cross a function boundary in the code below. *)
Inductive exception : Type :=
  | ValueError (msg : string)
  | TypeError (msg : string)
  | OtherException (msg : string).

(** Outcome of a call that may raise. *)
Inductive result (A : Type) : Type :=
  | Ok (a : A)
  | Raise (e : exception).
Arguments Ok {A} a.
Arguments Raise {A} e.

#[global] Instance result_ret : MRet result := λ A a, Ok a.
#[global] Instance result_fmap : FMap result := λ A B f r,
  match r with
  | Ok a => Ok (f a)
  | Raise e => Raise e
  end.
#[global] Instance result_bind : MBind result := λ A B k r,
  match r with
  | Ok a => k a
  | Raise e => Raise e
  end.

(** [for x in xs: acc = body(acc, x)] where the body may raise. *)
Fixpoint for_each {A S} (body : S → A → result S) (xs : list A) (acc : S) : result S :=
  match xs with
  | [] => Ok acc
  | x :: rest => acc' ← body acc x; for_each body rest acc'
  end.

(** ** Python [str] methods *)
Module Py.

Definition is_upper (c : ascii) : bool :=
  let n := nat_of_ascii c in (65 <=? n) && (n <=? 90).

Definition lower_char (c : ascii) : ascii :=
  if is_upper c then ascii_of_nat (nat_of_ascii c + 32) else c.

(** [s.lower()] *)
Fixpoint lower (s : string) : string :=
  match s with
  | EmptyString => EmptyString
  | String c s' => String (lower_char c) (lower s')
  end.

(** [c.isspace()] for an ASCII character. *)
Definition is_space (c : ascii) : bool :=
  let n := nat_of_ascii c in
  ((9 <=? n) && (n <=? 13)) || ((28 <=? n) && (n <=? 32)).

Definition is_empty (s : string) : bool :=
  match s with EmptyString => true | _ => false end.

Fixpoint lstrip_by (p : ascii → bool) (s : string) : string :=
  match s with
  | EmptyString => EmptyString
  | String c s' => if p c then lstrip_by p s' else s
  end.

Fixpoint rstrip_by (p : ascii → bool) (s : string) : string :=
  match s with
  | EmptyString => EmptyString
  | String c s' =>
      let r := rstrip_by p s' in
      if p c && is_empty r then EmptyString else String c r
  end.

(** [s.strip()] *)
Definition strip (s : string) : string := rstrip_by is_space (lstrip_by is_space s).

(** A byte [10xxxxxx]: it continues the character begun before it. *)
Definition is_continuation (c : ascii) : bool :=
  let n := nat_of_ascii c in (128 <=? n) && (n <=? 191).

(** [len(s)]: the number of characters, that is, of the bytes that
    begin one. *)
Fixpoint len (s : string) : nat :=
  match s with
  | EmptyString => 0
  | String c s' => if is_continuation c then len s' else S (len s')
  end.

(** Text on which [lower] and [strip] are Python's: well-formed UTF-8
    made of ASCII characters and of the characters U+00A1..U+00BF,
    U+3001..U+303F and U+4000..U+9FFF, none of which is cased or white
    space.  The bytes are [C2 A1..BF], [E3 80 81..BF] and
    [E4..E9 80..BF 80..BF]. *)
Fixpoint is_plain (s : string) : bool :=
  match s with
  | EmptyString => true
  | String c s1 =>
      let n := nat_of_ascii c in
      if n <? 128 then is_plain s1
      else
        match s1 with
        | EmptyString => false
        | String d s2 =>
            if n =? 194
            then (161 <=? nat_of_ascii d) && (nat_of_ascii d <=? 191) && is_plain s2
            else
              match s2 with
              | EmptyString => false
              | String e s3 =>
                  if n =? 227
                  then (nat_of_ascii d =? 128) && (129 <=? nat_of_ascii e)
                       && (nat_of_ascii e <=? 191) && is_plain s3
                  else (228 <=? n) && (n <=? 233) && is_continuation d
                       && is_continuation e && is_plain s3
              end
        end
  end.

(** [s.startswith(p)] *)
Fixpoint startswith (s p : string) : bool :=
  match p, s with
  | EmptyString, _ => true
  | String a p', String b s' => if decide (a = b) then startswith s' p' else false
  | String _ _, EmptyString => false
  end.

(** [needle in hay] *)
Fixpoint contains (needle hay : string) : bool :=
  startswith hay needle
  || match hay with
     | EmptyString => false
     | String _ hay' => contains needle hay'
     end.

(** [s.endswith(p)] *)
Fixpoint endswith (s p : string) : bool :=
  if decide (s = p) then true
  else match s with
       | EmptyString => false
       | String _ s' => endswith s' p
       end.

(** [c in s] for a single character. *)
Fixpoint has_char (c : ascii) (s : string) : bool :=
  match s with
  | EmptyString => false
  | String d s' => if decide (c = d) then true else has_char c s'
  end.

(** [s.split(sep)] for a one-character separator. *)
Fixpoint split (sep : ascii) (s : string) : list string :=
  match s with
  | EmptyString => [EmptyString]
  | String c s' =>
      if decide (c = sep) then EmptyString :: split sep s'
      else match split sep s' with
           | [] => [String c EmptyString]
           | w :: ws => String c w :: ws
           end
  end.

(** [sep.join(parts)] *)
Fixpoint join (sep : string) (parts : list string) : string :=
  match parts with
  | [] => EmptyString
  | [p] => p
  | p :: rest => p +:+ sep +:+ join sep rest
  end.

(** [s.partition(sep)]: [None] when [sep] does not occur, otherwise
    the text before and after its first occurrence. *)
Fixpoint partition (sep : ascii) (s : string) : option (string * string) :=
  match s with
  | EmptyString => None
  | String c s' =>
      if decide (c = sep) then Some (EmptyString, s')
      else match partition sep s' with
           | None => None
           | Some (a, b) => Some (String c a, b)
           end
  end.

(** [s.rpartition(sep)] in the same form. *)
Fixpoint rpartition (sep : ascii) (s : string) : option (string * string) :=
  match s with
  | EmptyString => None
  | String c s' =>
      match rpartition sep s' with
      | Some (a, b) => Some (String c a, b)
      | None => if decide (c = sep) then Some (EmptyString, s') else None
      end
  end.

(** Drop every character satisfying [p]. *)
Fixpoint remove_chars (p : ascii → bool) (s : string) : string :=
  match s with
  | EmptyString => EmptyString
  | String c s' => if p c then remove_chars p s' else String c (remove_chars p s')
  end.

Fixpoint forallb_str (p : ascii → bool) (s : string) : bool :=
  match s with
  | EmptyString => true
  | String c s' => p c && forallb_str p s'
  end.

Fixpoint drop (n : nat) (s : string) : string :=
  match n, s with
  | O, _ => s
  | S n', String _ s' => drop n' s'
  | S _, EmptyString => EmptyString
  end.

Fixpoint interleave (new s : string) : string :=
  match s with
  | EmptyString => new
  | String c s' => new +:+ String c (interleave new s')
  end.

(** Left-to-right replacement of the non-overlapping occurrences of a
    non-empty [old]; [skip] counts the characters of a match still to
    be passed over. *)
Fixpoint replace_from (old new s : string) (skip : nat) : string :=
  match s with
  | EmptyString => EmptyString
  | String c s' =>
      match skip with
      | S k => replace_from old new s' k
      | O =>
          if startswith s old
          then new +:+ replace_from old new s' (String.length old - 1)
          else String c (replace_from old new s' 0)
      end
  end.

(** [s.replace(old, new)] *)
Definition replace (old new s : string) : string :=
  if is_empty old then interleave new s else replace_from old new s 0.

(** The one-character strings of [s], as iterating over it yields. *)
Fixpoint chars (s : string) : list string :=
  match s with
  | EmptyString => []
  | String c s' => String c EmptyString :: chars s'
  end.

(** [s.split()]: the maximal runs of non-space characters; [cur] is
    the run being read. *)
Fixpoint split_ws_from (cur : string) (s : string) : list string :=
  match s with
  | EmptyString => if is_empty cur then [] else [cur]
  | String c s' =>
      if is_space c
      then (if is_empty cur then [] else [cur]) ++ split_ws_from EmptyString s'
      else split_ws_from (cur +:+ String c EmptyString) s'
  end.

Definition split_ws (s : string) : list string := split_ws_from EmptyString s.

(** The double-quote character as a string. *)
Definition dquote : string := String "034"%char EmptyString.

(** [repr] of a list of strings, for strings made of printable
    characters other than the quote and the backslash:
    [['a', 'b']]. *)
Definition repr_list (l : list string) : string :=
  "[" +:+ join ", " ((λ s, "'" +:+ s +:+ "'") <$> l) +:+ "]".

End Py.
(** ** [urllib.parse]

    The functions of CPython's [urllib.parse] that the extractor calls,
    transcribed for ASCII URLs.  Not covered: the NFKC check on a
    non-ASCII network location and the validation of the address inside
    a bracketed host; an unmatched bracket raises [ValueError] as in
    every CPython 3 release. *)
Module Urllib.

Record ParseResult : Type := mkParse {
  scheme : string;
  netloc : string;
  path : string;
  params : string;
  query : string;
  fragment : string
}.

Definition uses_relative : list string :=
  [EmptyString; "ftp"; "http"; "gopher"; "nntp"; "imap"; "wais"; "file"; "https";
   "shttp"; "mms"; "prospero"; "rtsp"; "rtspu"; "sftp"; "svn"; "svn+ssh";
   "ws"; "wss"].

Definition uses_netloc : list string :=
  [EmptyString; "ftp"; "http"; "gopher"; "nntp"; "telnet"; "imap"; "wais"; "file";
   "mms"; "https"; "shttp"; "snews"; "prospero"; "rtsp"; "rtspu"; "rsync";
   "svn"; "svn+ssh"; "sftp"; "nfs"; "git"; "git+ssh"; "ws"; "wss"].

Definition uses_params : list string :=
  [EmptyString; "ftp"; "hdl"; "prospero"; "http"; "imap"; "https"; "shttp"; "rtsp";
   "rtspu"; "sip"; "sips"; "mms"; "sftp"; "tel"].

Definition is_alpha (c : ascii) : bool :=
  let n := nat_of_ascii c in
  ((65 <=? n) && (n <=? 90)) || ((97 <=? n) && (n <=? 122)).

Definition is_digit (c : ascii) : bool :=
  let n := nat_of_ascii c in (48 <=? n) && (n <=? 57).

(** [c in scheme_chars] *)
Definition is_scheme_char (c : ascii) : bool :=
  is_alpha c || is_digit c
  || bool_decide (c = "+"%char) || bool_decide (c = "-"%char)
  || bool_decide (c = "."%char).

(** [c in _WHATWG_C0_CONTROL_OR_SPACE] *)
Definition is_c0_or_space (c : ascii) : bool := nat_of_ascii c <=? 32.

(** [c in _UNSAFE_URL_BYTES_TO_REMOVE] *)
Definition is_unsafe (c : ascii) : bool :=
  bool_decide (c = "009"%char) || bool_decide (c = "013"%char)
  || bool_decide (c = "010"%char).

Definition is_netloc_delim (c : ascii) : bool :=
  bool_decide (c = "/"%char) || bool_decide (c = "?"%char)
  || bool_decide (c = "#"%char).

(** Longest prefix without a delimiter, and the rest. *)
Fixpoint span_netloc (s : string) : string * string :=
  match s with
  | EmptyString => (EmptyString, EmptyString)
  | String c s' =>
      if is_netloc_delim c then (EmptyString, s)
      else let '(a, b) := span_netloc s' in (String c a, b)
  end.

(** [_splitnetloc(url, 2)] *)
Definition _splitnetloc (url : string) : string * string :=
  span_netloc (Py.drop 2 url).

(** [urlsplit(url, scheme)]; the result has [params] empty. *)
Definition urlsplit (url0 scheme0 : string) : result ParseResult :=
  let url := Py.remove_chars is_unsafe (Py.lstrip_by is_c0_or_space url0) in
  let scheme :=
    Py.remove_chars is_unsafe
      (Py.rstrip_by is_c0_or_space (Py.lstrip_by is_c0_or_space scheme0)) in
  let '(scheme, url) :=
    match Py.partition ":" url with
    | Some (String c0 pre', rest) =>
        if is_alpha c0 && Py.forallb_str is_scheme_char (String c0 pre')
        then (Py.lower (String c0 pre'), rest)
        else (scheme, url)
    | _ => (scheme, url)
    end in
  nl ← (if Py.startswith url "//" then
          let '(netloc, rest) := _splitnetloc url in
          if xorb (Py.has_char "[" netloc) (Py.has_char "]" netloc)
          then Raise (ValueError "Invalid IPv6 URL")
          else Ok (netloc, rest)
        else Ok (EmptyString, url)) ;
  let '(netloc, url) := nl in
  let '(url, fragment) :=
    match Py.partition "#" url with
    | Some (a, b) => (a, b)
    | None => (url, EmptyString)
    end in
  let '(url, query) :=
    match Py.partition "?" url with
    | Some (a, b) => (a, b)
    | None => (url, EmptyString)
    end in
  Ok (mkParse scheme netloc url EmptyString query fragment).

(** [_splitparams(url)], called when [';' in url]. *)
Definition _splitparams (url : string) : string * string :=
  match Py.rpartition "/" url with
  | Some (dir, last) =>
      match Py.partition ";" last with
      | Some (a, b) => (dir +:+ "/" +:+ a, b)
      | None => (url, EmptyString)
      end
  | None =>
      match Py.partition ";" url with
      | Some (a, b) => (a, b)
      | None => (url, EmptyString)
      end
  end.

(** [urlparse(url, scheme)] *)
Definition urlparse_with (url scheme0 : string) : result ParseResult :=
  r ← urlsplit url scheme0 ;
  if bool_decide (scheme r ∈ uses_params) && Py.has_char ";" (path r)
  then let '(p, ps) := _splitparams (path r) in
       Ok (mkParse (scheme r) (netloc r) p ps (query r) (fragment r))
  else Ok r.

(** [urlparse(url)] *)
Definition urlparse (url : string) : result ParseResult :=
  urlparse_with url EmptyString.

(** [urlunsplit((scheme, netloc, url, query, fragment))] *)
Definition urlunsplit (scheme netloc url query fragment : string) : string :=
  let url :=
    if negb (Py.is_empty netloc)
       || (negb (Py.is_empty scheme) && bool_decide (scheme ∈ uses_netloc)
           && negb (Py.startswith url "//"))
    then "//" +:+ netloc
         +:+ (if negb (Py.is_empty url) && negb (Py.startswith url "/")
              then "/" +:+ url else url)
    else url in
  let url := if Py.is_empty scheme then url else scheme +:+ ":" +:+ url in
  let url := if Py.is_empty query then url else url +:+ "?" +:+ query in
  if Py.is_empty fragment then url else url +:+ "#" +:+ fragment.

(** [urlunparse((scheme, netloc, url, params, query, fragment))] *)
Definition urlunparse (r : ParseResult) : string :=
  let url := if Py.is_empty (params r) then path r
             else path r +:+ ";" +:+ params r in
  urlunsplit (scheme r) (netloc r) url (query r) (fragment r).

(** [del base_parts[-1]] when the last part is not empty. *)
Definition drop_last_nonempty (parts : list string) : list string :=
  match reverse parts with
  | [] => []
  | lastp :: front => if Py.is_empty lastp then parts else reverse front
  end.

(** [segments[1:-1] = filter(None, segments[1:-1])] *)
Definition filter_middle (segments : list string) : list string :=
  match segments with
  | [] => []
  | first :: rest =>
      match reverse rest with
      | [] => [first]
      | lastp :: mid_rev =>
          first :: filter (λ s, Py.is_empty s = false) (reverse mid_rev) ++ [lastp]
      end
  end.

(** The [for seg in segments] loop over [resolved_path]. *)
Definition resolve_step (resolved_path : list string) (seg : string) : list string :=
  if decide (seg = "..") then removelast resolved_path
  else if decide (seg = ".") then resolved_path
  else resolved_path ++ [seg].

(** [urljoin(base, url)] *)
Definition urljoin (base url : string) : result string :=
  if Py.is_empty base then Ok url
  else if Py.is_empty url then Ok base
  else
    b ← urlparse_with base EmptyString ;
    u ← urlparse_with url (scheme b) ;
    if negb (bool_decide (scheme u = scheme b))
       || negb (bool_decide (scheme u ∈ uses_relative))
    then Ok url
    else if bool_decide (scheme u ∈ uses_netloc) && negb (Py.is_empty (netloc u))
    then Ok (urlunparse u)
    else
      let netloc' := if bool_decide (scheme u ∈ uses_netloc) then netloc b
                     else netloc u in
      if Py.is_empty (path u) && Py.is_empty (params u)
      then
        let query' := if Py.is_empty (query u) then query b else query u in
        Ok (urlunparse
              (mkParse (scheme u) netloc' (path b) (params b) query' (fragment u)))
      else
        let base_parts := drop_last_nonempty (Py.split "/" (path b)) in
        let segments :=
          if Py.startswith (path u) "/" then Py.split "/" (path u)
          else filter_middle (base_parts ++ Py.split "/" (path u)) in
        let resolved_path := foldl resolve_step [] segments in
        let resolved_path :=
          match last segments with
          | Some seg =>
              if bool_decide (seg = ".") || bool_decide (seg = "..")
              then resolved_path ++ [EmptyString] else resolved_path
          | None => resolved_path
          end in
        let joined := Py.join "/" resolved_path in
        Ok (urlunparse
              (mkParse (scheme u) netloc'
                 (if Py.is_empty joined then "/" else joined)
                 (params u) (query u) (fragment u))).

End Urllib.
(** ** The parsed document (BeautifulSoup, soupsieve)

    The tree that [BeautifulSoup(html, 'html.parser')] builds, and the
    tree operations the two modules call on it.  An element is handled
    together with its chain of ancestors, nearest first, which stands
    for the [.parent] pointers. *)

(** Value of an attribute: the multi-valued attributes ([class], [rel],
    ...) are lists of tokens, the others are strings. *)
Inductive attr_value : Type :=
  | AttrStr (s : string)
  | AttrList (l : list string).

#[global] Instance attr_value_eq_dec : EqDecision attr_value.
Proof. solve_decision. Defined.

Module Bs4.

(** [attrs] is a dict: an association list with distinct keys. *)
Inductive node : Type :=
  | NavigableString (s : string)
  | Tag (name : string) (attrs : list (string * attr_value)) (contents : list node).

(** The root object has the name ["[document]"] and no attributes. *)
Definition BeautifulSoupRoot (contents : list node) : node :=
  Tag "[document]" [] contents.

Definition is_tag (n : node) : bool :=
  match n with Tag _ _ _ => true | NavigableString _ => false end.

Definition name_of (n : node) : string :=
  match n with Tag name _ _ => name | NavigableString _ => EmptyString end.

Definition attrs_of (n : node) : list (string * attr_value) :=
  match n with Tag _ attrs _ => attrs | NavigableString _ => [] end.

Definition contents_of (n : node) : list node :=
  match n with Tag _ _ contents => contents | NavigableString _ => [] end.

(** [element.get(key)] *)
Fixpoint lookup_attr (attrs : list (string * attr_value)) (key : string)
  : option attr_value :=
  match attrs with
  | [] => None
  | (k, v) :: rest => if decide (k = key) then Some v else lookup_attr rest key
  end.

Definition get (n : node) (key : string) : option attr_value :=
  lookup_attr (attrs_of n) key.

(** An element with its ancestors, nearest first. *)
Definition located : Type := list node * node.

(** [element.descendants], in document order. *)
Fixpoint descendants (anc : list node) (n : node) : list located :=
  match n with
  | NavigableString _ => []
  | Tag _ _ contents =>
      (fix go (cs : list node) : list located :=
         match cs with
         | [] => []
         | c :: cs' => ((n :: anc, c) :: descendants (n :: anc) c) ++ go cs'
         end) contents
  end.

(** The strings below an element, in document order. *)
Fixpoint strings (n : node) : list string :=
  match n with
  | NavigableString s => [s]
  | Tag _ _ contents =>
      (fix go (cs : list node) : list string :=
         match cs with
         | [] => []
         | c :: cs' => strings c ++ go cs'
         end) contents
  end.

(** [element.get_text()] *)
Definition get_text (n : node) : string := Py.join EmptyString (strings n).

(** [element.get_text(strip=True)]: every string stripped, the empty
    ones skipped. *)
Definition get_text_strip (n : node) : string :=
  Py.join EmptyString
    (filter (λ s, Py.is_empty s = false) (Py.strip <$> strings n)).

(** The elements whose strings [html.parser] keeps apart ([Script],
    [Stylesheet], ...): [get_text] of another element leaves these
    strings out, so [strings] is what [get_text] reads only for an
    element without such an element below or above it. *)
Definition string_containers : list string :=
  ["rt"; "rp"; "style"; "script"; "template"].

Fixpoint no_string_containers (n : node) : bool :=
  match n with
  | NavigableString _ => true
  | Tag name _ contents =>
      negb (bool_decide (name ∈ string_containers))
      && (fix go (cs : list node) : bool :=
            match cs with
            | [] => true
            | c :: cs' => no_string_containers c && go cs'
            end) contents
  end.

(** An element whose text is what the model reads: plain strings, and
    no string container in it or among its ancestors. *)
Definition text_is_plain (d : located) : bool :=
  forallb (λ a, negb (bool_decide (name_of a ∈ string_containers))) d.1
  && no_string_containers d.2
  && forallb Py.is_plain (strings d.2).

(** [a == b] on dicts of attributes. *)
Definition attrs_eqb (a b : list (string * attr_value)) : bool :=
  bool_decide (list_to_map a =@{gmap string attr_value} list_to_map b).

(** [Tag.__eq__]: same name, same attributes, same contents. *)
Fixpoint node_eqb (a b : node) : bool :=
  match a, b with
  | NavigableString s, NavigableString t => bool_decide (s = t)
  | Tag n1 a1 c1, Tag n2 a2 c2 =>
      bool_decide (n1 = n2) && attrs_eqb a1 a2
      && (fix go (l1 l2 : list node) : bool :=
            match l1, l2 with
            | [], [] => true
            | x :: l1', y :: l2' => node_eqb x y && go l1' l2'
            | _, _ => false
            end) c1 c2
  | _, _ => false
  end.

(** Number of nodes of a tree. *)
Fixpoint size (n : node) : nat :=
  match n with
  | NavigableString _ => 1
  | Tag _ _ contents =>
      S ((fix go (cs : list node) : nat :=
            match cs with
            | [] => 0
            | c :: cs' => size c + go cs'
            end) contents)
  end.

(** [element.find_all('a', href=True)] *)
Definition find_all_a_href (anc : list node) (n : node) : list located :=
  filter (λ d : located,
            is_tag d.2 = true ∧ name_of d.2 = "a" ∧ is_Some (get d.2 "href"))
         (descendants anc n).

(** *** CSS selectors

    A selector is kept in parsed form; [show] gives its source text.
    [Invalid] stands for a string soupsieve rejects. *)

Inductive attr_op : Type := OpEq | OpContains.

Inductive simple : Type :=
  | SClass (c : string)
  | SId (i : string)
  | SAttr (a : string) (op : attr_op) (v : string)
  | SEmpty.

Record compound : Type := mkCompound {
  c_tag : option string;
  c_rest : list simple
}.

(** The compounds of a descendant chain [A B C], left to right. *)
Definition complex : Type := list compound.

Inductive selector : Type :=
  | Sel (alternatives : list complex)
  | Invalid (raw : string).

#[global] Instance attr_op_eq_dec : EqDecision attr_op.
Proof. solve_decision. Defined.
#[global] Instance simple_eq_dec : EqDecision simple.
Proof. solve_decision. Defined.
#[global] Instance compound_eq_dec : EqDecision compound.
Proof. solve_decision. Defined.
#[global] Instance selector_eq_dec : EqDecision selector.
Proof. solve_decision. Defined.

Definition show_simple (s : simple) : string :=
  match s with
  | SClass c => "." +:+ c
  | SId i => "#" +:+ i
  | SAttr a OpEq v => "[" +:+ a +:+ "=" +:+ Py.dquote +:+ v +:+ Py.dquote +:+ "]"
  | SAttr a OpContains v =>
      "[" +:+ a +:+ "*=" +:+ Py.dquote +:+ v +:+ Py.dquote +:+ "]"
  | SEmpty => ":empty"
  end.

Definition show_compound (c : compound) : string :=
  default EmptyString (c_tag c) +:+ Py.join EmptyString (show_simple <$> c_rest c).

Definition show (sel : selector) : string :=
  match sel with
  | Sel alts => Py.join ", " ((λ cx, Py.join " " (show_compound <$> cx)) <$> alts)
  | Invalid raw => raw
  end.

(** Shorthands for the selector forms of the two modules. *)
Definition tag_ (t : string) : selector := Sel [[mkCompound (Some t) []]].
Definition class_ (c : string) : selector := Sel [[mkCompound None [SClass c]]].
Definition id_ (i : string) : selector := Sel [[mkCompound None [SId i]]].
Definition tag_class (t c : string) : selector :=
  Sel [[mkCompound (Some t) [SClass c]]].
Definition attr_eq (a v : string) : selector :=
  Sel [[mkCompound None [SAttr a OpEq v]]].
Definition tag_attr_eq (t a v : string) : selector :=
  Sel [[mkCompound (Some t) [SAttr a OpEq v]]].
Definition attr_contains (a v : string) : selector :=
  Sel [[mkCompound None [SAttr a OpContains v]]].

(** An attribute value as the text soupsieve compares. *)
Definition attr_text (v : attr_value) : string :=
  match v with
  | AttrStr s => s
  | AttrList l => Py.join " " l
  end.

Definition class_tokens (n : node) : list string :=
  match get n "class" with
  | Some (AttrList l) => l
  | Some (AttrStr s) => Py.split_ws s
  | None => []
  end.

(** [:empty]: no element child and no string with a non-space
    character. *)
Definition is_empty_element (n : node) : bool :=
  forallb (λ c, match c with
                | Tag _ _ _ => false
                | NavigableString s => Py.forallb_str Py.is_space s
                end) (contents_of n).

Definition match_simple (s : simple) (n : node) : bool :=
  match s with
  | SClass c => bool_decide (c ∈ class_tokens n)
  | SId i => bool_decide (attr_text <$> get n "id" = Some i)
  | SAttr a OpEq v => bool_decide (attr_text <$> get n a = Some v)
  | SAttr a OpContains v =>
      match get n a with
      | Some w => negb (Py.is_empty v) && Py.contains v (attr_text w)
      | None => false
      end
  | SEmpty => is_empty_element n
  end.

Definition match_compound (c : compound) (n : node) : bool :=
  is_tag n
  && match c_tag c with
     | Some t => bool_decide (name_of n = t)
     | None => true
     end
  && forallb (λ s, match_simple s n) (c_rest c).

(** The compounds left of the subject, right to left, matched against
    the ancestors: each one by the nearest ancestor that fits. *)
Fixpoint match_ancestors (cs : list compound) (anc : list node) : bool :=
  match cs with
  | [] => true
  | c :: cs' =>
      (fix go (anc : list node) : bool :=
         match anc with
         | [] => false
         | a :: anc' => if match_compound c a then match_ancestors cs' anc'
                        else go anc'
         end) anc
  end.

Definition match_complex (cx : complex) (d : located) : bool :=
  match reverse cx with
  | [] => false
  | subject :: left_part => match_compound subject d.2 && match_ancestors left_part d.1
  end.

Definition matches (alts : list complex) (d : located) : bool :=
  existsb (λ cx, match_complex cx d) alts.

(** [element.select(selector)]: the matching descendants in document
    order; an invalid selector raises. *)
Definition select (sel : selector) (anc : list node) (n : node)
  : result (list located) :=
  match sel with
  | Sel alts => Ok (filter (λ d, matches alts d = true) (descendants anc n))
  | Invalid raw => Raise (OtherException ("SelectorSyntaxError: " +:+ raw))
  end.

(** The tree after [decompose()] has been called on every element of
    [select(Sel alts)]: the matches were computed on the tree before
    any removal, and a removed element takes its subtree with it. *)
Fixpoint decompose_all (alts : list complex) (anc : list node) (n : node) : node :=
  match n with
  | NavigableString _ => n
  | Tag name attrs contents =>
      Tag name attrs
        ((fix go (cs : list node) : list node :=
            match cs with
            | [] => []
            | c :: cs' =>
                if matches alts (n :: anc, c) then go cs'
                else decompose_all alts (n :: anc) c :: go cs'
            end) contents)
  end.

(** *** Positions and [decompose()]

    A loop that holds references to elements while it removes others
    (the keyword pass of the filter) is followed through positions: the
    child indices from the root down to the node, in the tree as it was
    when the references were taken, together with the positions on
    which [decompose()] has been called since. *)

(** The strings of the tree with their positions, in document order. *)
Fixpoint string_positions (n : node) : list (list nat * string) :=
  match n with
  | NavigableString s => [([], s)]
  | Tag _ _ contents =>
      (fix go (i : nat) (cs : list node) : list (list nat * string) :=
         match cs with
         | [] => []
         | c :: cs' =>
             ((λ ps : list nat * string, (i :: ps.1, ps.2)) <$> string_positions c)
             ++ go (S i) cs'
         end) 0 contents
  end.

(** The node at a position. *)
Fixpoint node_at (n : node) (p : list nat) : option node :=
  match p with
  | [] => Some n
  | i :: p' =>
      match contents_of n !! i with
      | Some c => node_at c p'
      | None => None
      end
  end.

(** The removed positions that lie in the child [i], relative to it. *)
Definition below (i : nat) (removed : list (list nat)) : list (list nat) :=
  omap (λ r, match r with
             | j :: r' => if decide (j = i) then Some r' else None
             | [] => None
             end) removed.

(** The same for the node at position [q]. *)
Definition under (q : list nat) (removed : list (list nat)) : list (list nat) :=
  foldl (λ removed i, below i removed) removed q.

(** What is left of a tree once [decompose()] has been called on the
    elements at the positions [removed]: each of them is gone from the
    contents of its parent, with everything below it. *)
Fixpoint prune (removed : list (list nat)) (n : node) : node :=
  match n with
  | NavigableString _ => n
  | Tag name attrs contents =>
      Tag name attrs
        ((fix go (i : nat) (cs : list node) : list node :=
            match cs with
            | [] => []
            | c :: cs' =>
                if bool_decide ([i] ∈ removed) then go (S i) cs'
                else prune (below i removed) c :: go (S i) cs'
            end) 0 contents)
  end.

(** An object after [decompose()]: its [__dict__] has been cleared, it
    has no name, no attributes and no contents.  A string in this state
    has no [parent] attribute either: reading it raises. *)
Definition decomposed : node := Tag EmptyString [] [].

Definition is_destroyed (removed : list (list nat)) (p : list nat) : bool :=
  existsb (λ r, bool_decide (r `prefix_of` p)) removed.

(** The document object after the removals; the root itself may be
    among them. *)
Definition tree_after (removed : list (list nat)) (soup : node) : node :=
  if bool_decide ([] ∈ removed) then decomposed else prune removed soup.

End Bs4.
(** ** Data model *)

(** One entry of [nav_info['links']] (the dict built at lines 104-112 of
    the extractor). *)
Record LinkInfo : Type := mkLink {
  text : string;
  url : string;
  href : string;
  level : nat;
  parent_text : option string;
  css_classes : attr_value;
  attributes : list (string * attr_value)
}.

(** ** [_deduplicate_links] *)

(** [key = f"{link['text']}|{link['url']}"] *)
Definition link_key (link : LinkInfo) : string :=
  text link +:+ "|" +:+ url link.

(** One iteration of the [for link in links] loop; the state is the pair
    [(unique_links, seen)]. *)
Definition dedup_step (st : list LinkInfo * gset string) (link : LinkInfo)
  : list LinkInfo * gset string :=
  let key := link_key link in
  if decide (key ∈ st.2) then st
  else (st.1 ++ [link], {[key]} ∪ st.2).

Definition _deduplicate_links (links : list LinkInfo) : list LinkInfo :=
  (foldl dedup_step ([], ∅) links).1.

(** The same loop as a recursive function of the [seen] set, used to
    reason about the fold. *)
Fixpoint dedup_from (seen : gset string) (links : list LinkInfo) : list LinkInfo :=
  match links with
  | [] => []
  | link :: rest =>
      if decide (link_key link ∈ seen) then dedup_from seen rest
      else link :: dedup_from ({[link_key link]} ∪ seen) rest
  end.

(** Keys of a list of links, as a set. *)
Definition key_set (links : list LinkInfo) : gset string :=
  list_to_set (link_key <$> links).


(** ** [_build_navigation_structure] *)

(** One item of the [structure] list (lines 191-197). *)
Record StructureItem : Type := mkItem {
  s_text : string;
  s_url : string;
  s_level : nat;
  s_parent_text : option string;
  s_type : string
}.

Definition structure_item (lvl : nat) (link : LinkInfo) : StructureItem :=
  mkItem (text link) (url link) lvl (parent_text link) "navigation".

(** The grouping loop: [levels[level].append(link)], creating the list
    on the first link of a level. *)
Definition group_step (levels : gmap nat (list LinkInfo)) (link : LinkInfo)
  : gmap nat (list LinkInfo) :=
  <[level link := default [] (levels !! level link) ++ [link]]> levels.

Definition group_by_level (links : list LinkInfo) : gmap nat (list LinkInfo) :=
  foldl group_step ∅ links.

(** [sorted(levels.keys())] *)
Definition sorted_keys (levels : gmap nat (list LinkInfo)) : list nat :=
  merge_sort (≤) (map_to_list levels).*1.

Definition _build_navigation_structure (links : list LinkInfo) : list StructureItem :=
  let levels := group_by_level links in
  foldl (λ structure lvl,
           foldl (λ structure link, structure ++ [structure_item lvl link])
                 structure (default [] (levels !! lvl)))
        [] (sorted_keys levels).

(** ** [EnhancedNavigationExtractor] *)

Record EnhancedNavigationExtractor : Type := mkExtractor {
  base_url : string;
  domain : string;
  nav_selectors : list Bs4.selector
}.

(** The selector priority list of [__init__], highest first. *)
Definition default_nav_selectors : list Bs4.selector :=
  [ Bs4.tag_attr_eq "nav" "role" "navigation";
    Bs4.tag_class "nav" "main-nav";
    Bs4.tag_class "nav" "primary-nav";
    Bs4.tag_class "nav" "site-nav";
    Bs4.tag_class "nav" "header-nav";
    Bs4.tag_class "nav" "top-nav";
    Bs4.class_ "navbar";
    Bs4.class_ "navigation";
    Bs4.class_ "nav-menu";
    Bs4.class_ "main-navigation";
    Bs4.class_ "site-navigation";
    Bs4.class_ "header-navigation";
    Bs4.class_ "primary-navigation";
    Bs4.tag_ "nav";
    Bs4.class_ "nav";
    Bs4.class_ "menu";
    Bs4.attr_eq "role" "navigation";
    Bs4.class_ "sidebar-nav";
    Bs4.class_ "side-nav" ].

(** [EnhancedNavigationExtractor(base_url)] *)
Definition new_extractor (base_url : string) : result EnhancedNavigationExtractor :=
  parsed ← Urllib.urlparse base_url;
  Ok (mkExtractor base_url (Urllib.netloc parsed) default_nav_selectors).

Definition asset_extensions : list string :=
  [".pdf"; ".jpg"; ".png"; ".gif"; ".css"; ".js"; ".ico"].

(** The bare [except] turns any failure of [urlparse] into [False]. *)
Definition _is_valid_internal_url (self : EnhancedNavigationExtractor) (url : string)
  : bool :=
  match Urllib.urlparse url with
  | Ok parsed =>
      bool_decide (Urllib.netloc parsed = domain self)
      && bool_decide (Urllib.scheme parsed ∈ ["http"; "https"])
      && negb (existsb (λ ext, Py.contains ext (Py.lower url)) asset_extensions)
  | Raise _ => false
  end.

(** [str(current.get('class', []))] *)
Definition class_repr (n : Bs4.node) : string :=
  match Bs4.get n "class" with
  | Some (AttrList l) => Py.repr_list l
  | Some (AttrStr s) => s
  | None => "[]"
  end.

(** The test of line 127 on one ancestor. *)
Definition is_menu_container (current : Bs4.node) : bool :=
  bool_decide (Bs4.name_of current ∈ ["ul"; "ol"; "li"; "div"])
  && Py.contains "menu" (Py.lower (class_repr current)).

(** The [while current and current != nav_element] loop over the
    ancestors of the link. *)
Fixpoint level_walk (nav_element : Bs4.node) (chain : list Bs4.node) (level : nat)
  : nat :=
  match chain with
  | [] => level
  | current :: up =>
      if Bs4.node_eqb current nav_element then level
      else level_walk nav_element up
             (if is_menu_container current then S level else level)
  end.

Definition _calculate_link_level (link_element : Bs4.located) (nav_element : Bs4.node)
  : nat :=
  level_walk nav_element link_element.1 0.

(** The [while parent] loop of [_get_parent_text]. *)
Fixpoint parent_text_walk (link_text : string) (chain : list Bs4.node)
  : option string :=
  match chain with
  | [] => None
  | parent :: up =>
      let ptext := Bs4.get_text_strip parent in
      if bool_decide (Bs4.name_of parent ∈ ["li"; "div"])
         && negb (bool_decide (ptext = link_text))
         && Py.contains link_text ptext
      then Some (Py.strip (Py.replace link_text EmptyString ptext))
      else parent_text_walk link_text up
  end.

Definition _get_parent_text (link_element : Bs4.located) : option string :=
  parent_text_walk (Bs4.get_text_strip link_element.2) link_element.1.

(** ['ul ul, ol ol, li li, .dropdown, .submenu, .sub-menu'] *)
Definition nested_selector : Bs4.selector :=
  Bs4.Sel
    [ [Bs4.mkCompound (Some "ul") []; Bs4.mkCompound (Some "ul") []];
      [Bs4.mkCompound (Some "ol") []; Bs4.mkCompound (Some "ol") []];
      [Bs4.mkCompound (Some "li") []; Bs4.mkCompound (Some "li") []];
      [Bs4.mkCompound None [Bs4.SClass "dropdown"]];
      [Bs4.mkCompound None [Bs4.SClass "submenu"]];
      [Bs4.mkCompound None [Bs4.SClass "sub-menu"]] ].

Definition _has_nested_structure (nav_element : Bs4.located) : result bool :=
  nested_elements ← Bs4.select nested_selector nav_element.1 nav_element.2;
  Ok (bool_decide (0 < length nested_elements)).

(** The dict of lines 104-112. *)
Definition link_info (link : Bs4.located) (nav_element : Bs4.node)
    (href_ text_ full_url : string) : LinkInfo :=
  {| text := text_;
     url := full_url;
     href := href_;
     level := _calculate_link_level link nav_element;
     parent_text := _get_parent_text link;
     css_classes := default (AttrList []) (Bs4.get link.2 "class");
     attributes := Bs4.attrs_of link.2 |}.

(** Body of the [for link in links] loop of [_extract_nav_element_info];
    [acc] is [nav_info['links']].  [urljoin] is called outside any
    [try], so what it raises leaves the function. *)
Definition extract_link (self : EnhancedNavigationExtractor)
    (nav_element : Bs4.node) (page_url : string)
    (acc : list LinkInfo) (link : Bs4.located) : result (list LinkInfo) :=
  let text_ := Bs4.get_text_strip link.2 in
  match Bs4.get link.2 "href" with
  | Some (AttrStr href_) =>
      if negb (Py.is_empty href_) && negb (Py.is_empty text_) then
        full_url ← Urllib.urljoin page_url href_;
        if _is_valid_internal_url self full_url
        then Ok (acc ++ [link_info link nav_element href_ text_ full_url])
        else Ok acc
      else Ok acc
  | Some (AttrList l) =>
      (* a list-valued href: [urljoin] returns it as it is for an empty
         base, and [urlparse] then fails inside the [try] of the
         validity check; otherwise [urljoin] raises *)
      if bool_decide (l ≠ []) && negb (Py.is_empty text_) && negb (Py.is_empty page_url)
      then Raise (TypeError "Cannot mix str and non-str arguments")
      else Ok acc
  | None => Ok acc
  end.

(** One entry of [found_navigations]; [nav_html] holds the element that
    [str(nav_element)] serialises. *)
Record NavInfo : Type := mkNavInfo {
  nav_selector : string;
  nav_html : Bs4.node;
  nav_text : string;
  nav_links : list LinkInfo;
  nav_structure : string
}.

Definition _extract_nav_element_info (self : EnhancedNavigationExtractor)
    (nav_element : Bs4.located) (page_url : string) (selector : string)
  : result NavInfo :=
  links ← for_each (extract_link self nav_element.2 page_url)
             (Bs4.find_all_a_href nav_element.1 nav_element.2) [];
  nested ← _has_nested_structure nav_element;
  Ok (mkNavInfo selector nav_element.2 (Bs4.get_text_strip nav_element.2) links
        (if (nested : bool) then "hierarchical" else "flat")).

Record NavigationData : Type := mkNavData {
  found_navigations : list NavInfo;
  primary_navigation : option NavInfo;
  all_nav_links : list LinkInfo;
  navigation_structure : list StructureItem
}.

(** Body of the inner loop (lines 62-69); the state is
    [(found_navigations, primary_navigation)]. *)
Definition scan_element (self : EnhancedNavigationExtractor) (page_url : string)
    (selector : Bs4.selector)
    (st : list NavInfo * option NavInfo) (nav_element : Bs4.located)
  : result (list NavInfo * option NavInfo) :=
  nav_info ← _extract_nav_element_info self nav_element page_url (Bs4.show selector);
  if bool_decide (nav_links nav_info ≠ [])
  then Ok (st.1 ++ [nav_info],
           match st.2 with
           | None => Some nav_info
           | Some p => Some p
           end)
  else Ok st.

(** Body of the outer loop (lines 59-69). *)
Definition scan_selector (self : EnhancedNavigationExtractor) (soup : Bs4.node)
    (page_url : string)
    (st : list NavInfo * option NavInfo) (selector : Bs4.selector)
  : result (list NavInfo * option NavInfo) :=
  nav_elements ← Bs4.select selector [] soup;
  for_each (scan_element self page_url selector) nav_elements st.

(** Lines 51-83, on the parsed document. *)
Definition extract_navigation_from_soup (self : EnhancedNavigationExtractor)
    (soup : Bs4.node) (page_url : string) : result NavigationData :=
  st ← for_each (scan_selector self soup page_url) (nav_selectors self) ([], None);
  let all_links := concat (nav_links <$> st.1) in
  let unique_links := _deduplicate_links all_links in
  Ok (mkNavData st.1 st.2 unique_links (_build_navigation_structure unique_links)).

(** The input of [extract_navigation_from_crawl_result]:
    [cr_navigation] is [extracted_content[0]['navigation']], empty when
    absent. *)
Record CrawlResult : Type := mkCrawl {
  cr_url : string;
  cr_navigation : string;
  cr_cleaned_html : string
}.

Record PageNavigation : Type := mkPageNav {
  pn_url : string;
  extracted_navigation : option string;
  enhanced_navigation : option NavigationData
}.

Record EnhancedResults : Type := mkEnhanced {
  er_base_url : string;
  total_pages : nat;
  pages_with_navigation : nat;
  unique_navigation_links : list LinkInfo;
  er_navigation_structure : list StructureItem;
  page_navigations : list PageNavigation
}.

(** State of the loop of [enhance_navigation_extraction]:
    [page_navigations], [pages_with_navigation] and [all_nav_links]. *)
Definition aggregate_page (page_nav : PageNavigation)
    (st : list PageNavigation * nat * list LinkInfo)
  : list PageNavigation * nat * list LinkInfo :=
  let '(pages, count, all_links) := st in
  match enhanced_navigation page_nav with
  | Some nav =>
      if bool_decide (all_nav_links nav ≠ [])
      then (pages ++ [page_nav], S count, all_links ++ all_nav_links nav)
      else (pages ++ [page_nav], count, all_links)
  | None => (pages ++ [page_nav], count, all_links)
  end.

(** Lines 266-273: what the aggregation does with the per-page results
    once they are there. *)
Definition aggregate (base_url : string) (n_pages : nat)
    (st : list PageNavigation * nat * list LinkInfo) : EnhancedResults :=
  let '(pages, count, all_links) := st in
  let unique_links := _deduplicate_links all_links in
  mkEnhanced base_url n_pages count unique_links
    (_build_navigation_structure unique_links) pages.

Section with_parser.
(** [BeautifulSoup(html, 'html.parser')]: the tree, or the exception
    the parser raises. *)
Variable BeautifulSoup : string → result Bs4.node.

Definition extract_navigation_from_html (self : EnhancedNavigationExtractor)
    (html_content page_url : string) : result NavigationData :=
  soup ← BeautifulSoup html_content;
  extract_navigation_from_soup self soup page_url.

Definition extract_navigation_from_crawl_result (self : EnhancedNavigationExtractor)
    (crawl_result : CrawlResult) : result PageNavigation :=
  let extracted :=
    if Py.is_empty (cr_navigation crawl_result) then None
    else Some (cr_navigation crawl_result) in
  if Py.is_empty (cr_cleaned_html crawl_result)
  then Ok (mkPageNav (cr_url crawl_result) extracted None)
  else
    enhanced_nav ← extract_navigation_from_html self
                      (cr_cleaned_html crawl_result) (cr_url crawl_result);
    Ok (mkPageNav (cr_url crawl_result) extracted (Some enhanced_nav)).

Definition enhance_navigation_extraction (crawl_results : list CrawlResult)
    (base_url : string) : result EnhancedResults :=
  extractor ← new_extractor base_url;
  st ← for_each (λ st result,
                   page_nav ← extract_navigation_from_crawl_result extractor result;
                   Ok (aggregate_page page_nav st))
          crawl_results ([], 0, []);
  Ok (aggregate base_url (length crawl_results) st).
End with_parser.

(** ** [ContentFilter] *)

(** One entry of [PRESET_FILTERS]: its selectors and keywords (the
    display name plays no role in filtering). *)
Record Preset : Type := mkPreset {
  selectors : list Bs4.selector;
  keywords : list string
}.

Definition PRESET_FILTERS : list (string * Preset) :=
  [ ("footer",
     mkPreset
       [ Bs4.tag_ "footer"; Bs4.class_ "footer"; Bs4.id_ "footer";
         Bs4.class_ "site-footer"; Bs4.class_ "page-footer";
         Bs4.class_ "footer-content"; Bs4.class_ "footer-wrapper";
         Bs4.class_ "footer-container"; Bs4.attr_eq "role" "contentinfo";
         Bs4.class_ "footer-section"; Bs4.class_ "bottom-footer" ]
       [ "版权所有"; "©"; "copyright"; "联系我们"; "友情链接" ]);
    ("header",
     mkPreset
       [ Bs4.tag_ "header"; Bs4.class_ "header"; Bs4.id_ "header";
         Bs4.class_ "site-header"; Bs4.class_ "page-header";
         Bs4.class_ "header-content"; Bs4.class_ "header-wrapper";
         Bs4.class_ "header-container"; Bs4.class_ "top-header";
         Bs4.class_ "main-header" ]
       []);
    ("navigation",
     mkPreset
       [ Bs4.tag_ "nav"; Bs4.class_ "nav"; Bs4.class_ "navigation";
         Bs4.class_ "navbar"; Bs4.class_ "menu"; Bs4.class_ "sidebar";
         Bs4.attr_eq "role" "navigation"; Bs4.class_ "nav-menu";
         Bs4.class_ "main-nav"; Bs4.class_ "site-nav"; Bs4.class_ "primary-nav";
         Bs4.class_ "header-nav"; Bs4.class_ "top-nav"; Bs4.class_ "side-nav";
         Bs4.class_ "navigation-menu"; Bs4.class_ "breadcrumb";
         Bs4.class_ "breadcrumbs" ]
       []);
    ("ads",
     mkPreset
       [ Bs4.class_ "ad"; Bs4.class_ "ads"; Bs4.class_ "advertisement";
         Bs4.class_ "advert"; Bs4.class_ "banner"; Bs4.class_ "google-ad";
         Bs4.class_ "adsense"; Bs4.class_ "ad-container"; Bs4.class_ "ad-wrapper";
         Bs4.class_ "sponsored"; Bs4.class_ "promotion"; Bs4.class_ "promo";
         Bs4.attr_contains "id" "ad"; Bs4.attr_contains "class" "ad-";
         Bs4.attr_contains "class" "ads-" ]
       [ "广告"; "推广"; "AD"; "ads"; "advertisement"; "sponsored" ]);
    ("social",
     mkPreset
       [ Bs4.class_ "social"; Bs4.class_ "social-media"; Bs4.class_ "social-links";
         Bs4.class_ "share"; Bs4.class_ "share-buttons"; Bs4.class_ "social-share";
         Bs4.class_ "follow-us"; Bs4.class_ "social-icons"; Bs4.class_ "social-bar" ]
       [ "分享"; "关注我们"; "follow us"; "share" ]);
    ("comments",
     mkPreset
       [ Bs4.class_ "comments"; Bs4.class_ "comment"; Bs4.class_ "comment-section";
         Bs4.class_ "discussion"; Bs4.class_ "replies"; Bs4.class_ "feedback";
         Bs4.id_ "comments"; Bs4.id_ "disqus_thread"; Bs4.class_ "comment-form";
         Bs4.class_ "comment-list" ]
       [ "评论"; "留言"; "comments"; "discussion" ]);
    ("sidebar",
     mkPreset
       [ Bs4.class_ "sidebar"; Bs4.class_ "side-bar"; Bs4.class_ "widget";
         Bs4.class_ "widgets"; Bs4.class_ "sidebar-content"; Bs4.class_ "secondary";
         Bs4.class_ "aside"; Bs4.attr_eq "role" "complementary" ]
       []);
    ("popup",
     mkPreset
       [ Bs4.class_ "popup"; Bs4.class_ "modal"; Bs4.class_ "overlay";
         Bs4.class_ "lightbox"; Bs4.class_ "dialog"; Bs4.class_ "alert";
         Bs4.class_ "notification"; Bs4.class_ "toast";
         Bs4.class_ "popup-content"; Bs4.class_ "modal-content" ]
       []) ].

(** [PRESET_FILTERS[filter_name]] when [filter_name in PRESET_FILTERS]. *)
Fixpoint lookup_preset (table : list (string * Preset)) (filter_name : string)
  : option Preset :=
  match table with
  | [] => None
  | (k, v) :: rest => if decide (k = filter_name) then Some v
                      else lookup_preset rest filter_name
  end.

Record ContentFilter : Type := mkFilter {
  enabled_filters : list string;
  custom_selectors : list Bs4.selector;
  custom_keywords : list string;
  compiled_selectors : list Bs4.selector;
  compiled_keywords : list string
}.

(** [list(set(xs))] lists every member once; the order in which Python
    does so is unspecified, and no result below depends on it. *)
Definition list_of_set {A} `{EqDecision A} (xs : list A) : list A := remove_dups xs.

Definition _compile_selectors (enabled : list string) (custom : list Bs4.selector)
  : list Bs4.selector :=
  let selectors_ :=
    foldl (λ acc filter_name,
             match lookup_preset PRESET_FILTERS filter_name with
             | Some p => acc ++ selectors p
             | None => acc
             end) [] enabled in
  list_of_set (selectors_ ++ custom).

Definition _compile_keywords (enabled : list string) (custom : list string)
  : list string :=
  let keywords_ :=
    foldl (λ acc filter_name,
             match lookup_preset PRESET_FILTERS filter_name with
             | Some p => acc ++ keywords p
             | None => acc
             end) [] enabled in
  list_of_set (keywords_ ++ custom).

(** [ContentFilter(enabled_filters, custom_selectors, custom_keywords)] *)
Definition new_filter (enabled : list string) (custom_sel : list Bs4.selector)
    (custom_kw : list string) : ContentFilter :=
  mkFilter enabled custom_sel custom_kw
    (_compile_selectors enabled custom_sel) (_compile_keywords enabled custom_kw).

Definition create_default_filter : ContentFilter :=
  new_filter ["footer"; "ads"; "popup"] [] [].

(** [' '.join(class_list) if class_list else ''] *)
Definition class_names_of (element : Bs4.node) : string :=
  match Bs4.get element "class" with
  | Some (AttrList l) => Py.join " " l
  | Some (AttrStr s) => Py.join " " (Py.chars s)
  | None => EmptyString
  end.

(** [element.get('id') or ''] ([id] is a plain string under
    [html.parser]). *)
Definition element_id_of (element : Bs4.node) : string :=
  match Bs4.get element "id" with
  | Some v => Bs4.attr_text v
  | None => EmptyString
  end.

Definition _should_remove_by_keyword (element : Bs4.node) (keyword : string) : bool :=
  let text_ := Py.strip (Bs4.get_text element) in
  if (Py.len text_ <? 200) && Py.contains (Py.lower keyword) (Py.lower text_)
  then true
  else if Py.contains (Py.lower keyword) (Py.lower (class_names_of element))
          || Py.contains (Py.lower keyword) (Py.lower (element_id_of element))
  then true
  else false.

(** The newline character as a string. *)
Definition newline : string := String "010"%char EmptyString.

(** The [for keyword in self.compiled_keywords] loop of [filter_text]
    with its [break]; the result is [should_keep]. *)
Fixpoint line_should_keep (compiled_keywords : list string) (line : string) : bool :=
  match compiled_keywords with
  | [] => true
  | keyword :: rest =>
      if Py.contains (Py.lower keyword) (Py.lower line)
      then if Py.len (Py.strip line) <? 100 then false
           else line_should_keep rest line
      else line_should_keep rest line
  end.

Definition filter_text (self : ContentFilter) (text_content : string) : string :=
  if Py.is_empty text_content || bool_decide (compiled_keywords self = [])
  then text_content
  else
    let lines := Py.split "010"%char text_content in
    let filtered_lines :=
      foldl (λ filtered_lines line,
               if line_should_keep (compiled_keywords self) line
               then filtered_lines ++ [line] else filtered_lines)
            [] lines in
    Py.join newline filtered_lines.

(** One round of the selector loop of [filter_html] (lines 171-178) on
    the pair [(soup, removed_count)]: a selector that raises is skipped. *)
Definition selector_step (st : Bs4.node * nat) (selector : Bs4.selector)
  : Bs4.node * nat :=
  match selector with
  | Bs4.Sel alts =>
      match Bs4.select selector [] st.1 with
      | Ok elements =>
          (Bs4.decompose_all alts [] st.1, st.2 + length elements)
      | Raise _ => st
      end
  | Bs4.Invalid _ => st
  end.

Definition selector_pass (compiled : list Bs4.selector) (soup : Bs4.node)
  : Bs4.node * nat :=
  foldl selector_step (soup, 0) compiled.

Section with_html_library.
(** [BeautifulSoup(html, 'html.parser')] and [str(soup)]. *)
Variable BeautifulSoup : string → result Bs4.node.
Variable str_soup : Bs4.node → result string.
(** The keyword pass: for the statements about [filter_html] as a
    whole it is any function that returns the updated tree with the
    number of elements it removed, or raises.  The pass of the
    repository is [ContentFilter._filter_by_keywords] below. *)
Variable _filter_by_keywords : list string → Bs4.node → result (Bs4.node * nat).

(** The [try] block of [filter_html] (lines 166-187), with
    [removed_count] returned next to the text. *)
Definition filter_html_try (self : ContentFilter) (html_content : string)
  : result (string * nat) :=
  soup ← BeautifulSoup html_content;
  let st := selector_pass (compiled_selectors self) soup in
  st' ← (if bool_decide (compiled_keywords self ≠ [])
         then r ← _filter_by_keywords (compiled_keywords self) st.1;
              Ok (r.1, st.2 + r.2)
         else Ok st);
  out ← str_soup st'.1;
  Ok (out, st'.2).

(** [filter_html] together with the number of elements removed from
    the returned document. *)
Definition filter_html_counted (self : ContentFilter) (html_content : string)
  : string * nat :=
  if Py.is_empty html_content then (html_content, 0)
  else match filter_html_try self html_content with
       | Ok r => r
       | Raise _ => (html_content, 0)
       end.

Definition filter_html (self : ContentFilter) (html_content : string) : string :=
  (filter_html_counted self html_content).1.
End with_html_library.

(** ** Auxiliary definitions for the statements *)

(** The validity rule as the specification words it: same host, scheme
    http or https, and a path that does not end in one of the asset
    extensions. *)
Definition spec_valid_link (site_host : string) (url : string) : bool :=
  match Urllib.urlparse url with
  | Ok parsed =>
      bool_decide (Urllib.netloc parsed = site_host)
      && bool_decide (Urllib.scheme parsed ∈ ["http"; "https"])
      && negb (existsb (λ ext, Py.endswith (Py.lower (Urllib.path parsed)) ext)
                 asset_extensions)
  | Raise _ => false
  end.

(** What one anchor contributes to [nav_info['links']] when its [href]
    resolves. *)
Definition link_entry (self : EnhancedNavigationExtractor) (nav_element : Bs4.node)
    (page_url : string) (link : Bs4.located) : option LinkInfo :=
  match Bs4.get link.2 "href" with
  | Some (AttrStr href_) =>
      let text_ := Bs4.get_text_strip link.2 in
      if negb (Py.is_empty href_) && negb (Py.is_empty text_) then
        match Urllib.urljoin page_url href_ with
        | Ok full_url =>
            if _is_valid_internal_url self full_url
            then Some (link_info link nav_element href_ text_ full_url)
            else None
        | Raise _ => None
        end
      else None
  | _ => None
  end.

(** Selectors whose match depends only on the names and attributes of
    an element and of its ancestors. *)
Definition simple_is_static (s : Bs4.simple) : bool :=
  match s with
  | Bs4.SEmpty => false
  | _ => true
  end.

Definition selector_is_static (sel : Bs4.selector) : bool :=
  match sel with
  | Bs4.Sel alts =>
      forallb (forallb (λ c, forallb simple_is_static (Bs4.c_rest c))) alts
  | Bs4.Invalid _ => true
  end.

(** The links a page contributes to the site-wide list. *)
Definition page_links (page_nav : PageNavigation) : list LinkInfo :=
  match enhanced_navigation page_nav with
  | Some nav => all_nav_links nav
  | None => []
  end.

(** The order in which [extract_navigation_from_html] visits the
    elements: selector by selector, and for one selector in document
    order. *)
Definition scan_order_of (sels : list Bs4.selector) (soup : Bs4.node)
  : list (Bs4.selector * Bs4.located) :=
  sels ≫= (λ sel, match Bs4.select sel [] soup with
                  | Ok els => (λ el, (sel, el)) <$> els
                  | Raise _ => []
                  end).

Definition scan_order (self : EnhancedNavigationExtractor) (soup : Bs4.node)
  : list (Bs4.selector * Bs4.located) :=
  scan_order_of (nav_selectors self) soup.

(** A candidate is kept when it has at least one link. *)
Definition keep_candidates (infos : list NavInfo) : list NavInfo :=
  filter (λ info, nav_links info ≠ []) infos.

(** What a static selector can see of a node: whether it is an element,
    its name and its attributes. *)
Definition head_of (n : Bs4.node) : bool * string * list (string * attr_value) :=
  (Bs4.is_tag n, Bs4.name_of n, Bs4.attrs_of n).

Definition same_heads (anc anc' : list Bs4.node) : Prop :=
  Forall2 (λ a a', head_of a = head_of a') anc anc'.

(** No descendant of [n] matches. *)
Definition clean (alts : list Bs4.complex) (anc : list Bs4.node) (n : Bs4.node) : Prop :=
  ∀ d, d ∈ Bs4.descendants anc n → Bs4.matches alts d = false.

Definition clean_for (sel : Bs4.selector) (soup : Bs4.node) : Prop :=
  match sel with
  | Bs4.Sel alts => clean alts [] soup
  | Bs4.Invalid _ => True
  end.


(** ** Concrete inputs used by the examples *)





(** [<p>our ads partners</p>] *)
Definition short_element : Bs4.node :=
  Bs4.Tag "p" [] [Bs4.NavigableString "our ads partners"].

Definition footer_filter : ContentFilter := new_filter ["footer"] [] [].

(** A parser that rejects everything, and one that returns a fixed
    tree whatever the markup. *)
Definition rejecting_parser (html : string) : result Bs4.node :=
  Raise (OtherException "ParserRejectedMarkup").

Definition constant_parser (soup : Bs4.node) (html : string) : result Bs4.node :=
  Ok soup.

(** [<nav><a href='/get-started'>Get Started</a><a href='/models'>Models</a></nav>]
    as parsed. *)
Definition welcome_nav : Bs4.node :=
  Bs4.Tag "nav" []
    [ Bs4.Tag "a" [("href", AttrStr "/get-started")]
        [Bs4.NavigableString "Get Started"];
      Bs4.Tag "a" [("href", AttrStr "/models")] [Bs4.NavigableString "Models"] ].

Definition welcome_soup : Bs4.node := Bs4.BeautifulSoupRoot [welcome_nav].

Definition welcome_html : string :=
  "<nav><a href='/get-started'>Get Started</a><a href='/models'>Models</a></nav>".

(** Two crawled pages carrying the same navigation bar. *)
Definition two_pages : list CrawlResult :=
  [ mkCrawl "https://docs.example.com/welcome" EmptyString welcome_html;
    mkCrawl "https://docs.example.com/models" EmptyString welcome_html ].

(** The extractor of the site [https://example.com]. *)
Definition example_extractor : EnhancedNavigationExtractor :=
  mkExtractor "https://example.com" "example.com" default_nav_selectors.

(** [<nav><a href='/docs/'>Docs</a>
         <a href='https://other.example.com/page'>Partner</a>
         <a href='/logo.png'>Logo</a></nav>] *)
Definition mixed_nav : Bs4.node :=
  Bs4.Tag "nav" []
    [ Bs4.Tag "a" [("href", AttrStr "/docs/")] [Bs4.NavigableString "Docs"];
      Bs4.Tag "a" [("href", AttrStr "https://other.example.com/page")]
        [Bs4.NavigableString "Partner"];
      Bs4.Tag "a" [("href", AttrStr "/logo.png")] [Bs4.NavigableString "Logo"] ].

(** [<nav><a href='/guides/node.js/intro'>Node.js guide</a></nav>] *)
Definition nodejs_nav : Bs4.node :=
  Bs4.Tag "nav" []
    [ Bs4.Tag "a" [("href", AttrStr "/guides/node.js/intro")]
        [Bs4.NavigableString "Node.js guide"] ].

(** [<div class='menu'><a href='/blog'>Blog</a></div>
     <nav role='navigation'><a href='/docs/'>Docs</a></nav>] *)
Definition priority_soup : Bs4.node :=
  Bs4.BeautifulSoupRoot
    [ Bs4.Tag "div" [("class", AttrList ["menu"])]
        [ Bs4.Tag "a" [("href", AttrStr "/blog")] [Bs4.NavigableString "Blog"] ];
      Bs4.Tag "nav" [("role", AttrStr "navigation")]
        [ Bs4.Tag "a" [("href", AttrStr "/docs/")] [Bs4.NavigableString "Docs"] ] ].

Definition priority_nav : Bs4.located :=
  ([priority_soup],
   Bs4.Tag "nav" [("role", AttrStr "navigation")]
     [ Bs4.Tag "a" [("href", AttrStr "/docs/")] [Bs4.NavigableString "Docs"] ]).

(** [<nav><a href='//['>Docs</a></nav>]: the href opens a bracketed
    host and never closes it. *)
Definition bad_href_html : string := "<nav><a href='//['>Docs</a></nav>".

Definition bad_href_soup : Bs4.node :=
  Bs4.BeautifulSoupRoot
    [ Bs4.Tag "nav" []
        [ Bs4.Tag "a" [("href", AttrStr "//[")] [Bs4.NavigableString "Docs"] ] ].

(** The selector [div:empty] and the document [<div><div></div></div>]. *)
Definition div_empty : Bs4.selector :=
  Bs4.Sel [[Bs4.mkCompound (Some "div") [Bs4.SEmpty]]].

Definition nested_divs : Bs4.node :=
  Bs4.BeautifulSoupRoot [Bs4.Tag "div" [] [Bs4.Tag "div" [] []]].

(** [<header>Head</header><main><h1>Title</h1><p>Body</p></main>
     <footer><p>(c) 2025</p></footer><div class='ad'>Buy now</div>] *)
Definition sample_page : Bs4.node :=
  Bs4.BeautifulSoupRoot
    [ Bs4.Tag "header" [] [Bs4.NavigableString "Head"];
      Bs4.Tag "main" []
        [ Bs4.Tag "h1" [] [Bs4.NavigableString "Title"];
          Bs4.Tag "p" [] [Bs4.NavigableString "Body"] ];
      Bs4.Tag "footer" [] [Bs4.Tag "p" [] [Bs4.NavigableString "(c) 2025"]];
      Bs4.Tag "div" [("class", AttrList ["ad"])] [Bs4.NavigableString "Buy now"] ].

(** Four links to the documentation: the second differs from the first
    in its level, parent text and href only, the third in the case of
    one letter of the text, the fourth in the URL. *)
Definition docs_link : LinkInfo :=
  mkLink "Docs" "https://example.com/docs/" "/docs/" 0 None (AttrList []) [].

Definition docs_link_nested : LinkInfo :=
  mkLink "Docs" "https://example.com/docs/" "docs/" 2 (Some "Guides")
    (AttrList ["sub"]) [("class", AttrList ["sub"])].

Definition docs_link_lowercase : LinkInfo :=
  mkLink "docs" "https://example.com/docs/" "/docs/" 0 None (AttrList []) [].

Definition docs_link_other : LinkInfo :=
  mkLink "Docs" "https://example.com/docs/v2" "/docs/v2" 0 None (AttrList []) [].

(** [<nav><a href='/docs/'>Docs</a><a href='//['>Broken</a></nav>] *)
Definition broken_nav : Bs4.node :=
  Bs4.Tag "nav" []
    [ Bs4.Tag "a" [("href", AttrStr "/docs/")] [Bs4.NavigableString "Docs"];
      Bs4.Tag "a" [("href", AttrStr "//[")] [Bs4.NavigableString "Broken"] ].

Definition broken_soup : Bs4.node := Bs4.BeautifulSoupRoot [broken_nav].

(** The second anchor of [broken_nav], with its ancestors. *)
Definition broken_anchor : Bs4.located :=
  ([broken_nav; broken_soup],
   Bs4.Tag "a" [("href", AttrStr "//[")] [Bs4.NavigableString "Broken"]).

(** ** [WebsiteCrawler] and [CrawlerTask]: the URL helpers *)

Module WebsiteCrawler.

(** [_is_valid_url] of [website_crawler.py]; [domain] is [self.domain]. *)
Definition _is_valid_url (domain : string) (url : string) : bool :=
  match Urllib.urlparse url with
  | Ok parsed =>
      bool_decide (Urllib.netloc parsed = domain)
      && bool_decide (Urllib.scheme parsed ∈ ["http"; "https"])
      && negb (existsb (λ ext, Py.contains ext (Py.lower url))
                 [".pdf"; ".jpg"; ".png"; ".gif"; ".css"; ".js"])
  | Raise _ => false
  end.

Definition safe_chars : string :=
  "abcdefghijklmnopqrstuvwxyzABCDEFGHIJKLMNOPQRSTUVWXYZ0123456789-_".

(** [''.join(c if c in safe_chars else '_' for c in path)]: one
    character of the result for each character of [path], so the bytes
    that continue a character give nothing. *)
Fixpoint sanitize (path : string) : string :=
  match path with
  | EmptyString => EmptyString
  | String c rest =>
      if Py.is_continuation c then sanitize rest
      else String (if Py.has_char c safe_chars then c else "_"%char) (sanitize rest)
  end.

(** [s[:n]] *)
Fixpoint take (n : nat) (s : string) : string :=
  match n, s with
  | S n', String c s' => String c (take n' s')
  | _, _ => EmptyString
  end.

Definition is_slash (c : ascii) : bool := bool_decide (c = "/"%char).

(** [_url_to_filename]; [urlparse] is called outside any [try]. *)
Definition _url_to_filename (url : string) : result string :=
  parsed ← Urllib.urlparse url;
  let path := Py.rstrip_by is_slash (Py.lstrip_by is_slash (Urllib.path parsed)) in
  let path := if Py.is_empty path then "index" else path in
  let filename := sanitize path in
  let filename := if 100 <? Py.len filename then take 100 filename else filename in
  Ok (if Py.is_empty filename then "page" else filename).

End WebsiteCrawler.

Module CrawlerTask.

(** [_is_valid_url] of [web/server.py]: both URLs are parsed inside the
    [try]. *)
Definition _is_valid_url (url base_url : string) : bool :=
  match Urllib.urlparse base_url with
  | Ok base_parsed =>
      match Urllib.urlparse url with
      | Ok url_parsed =>
          bool_decide (Urllib.netloc url_parsed = Urllib.netloc base_parsed)
          && bool_decide (Urllib.scheme url_parsed ∈ ["http"; "https"])
          && negb (existsb (λ ext, Py.contains ext (Py.lower url))
                     [".pdf"; ".jpg"; ".png"; ".gif"; ".css"; ".js"])
      | Raise _ => false
      end
  | Raise _ => false
  end.

End CrawlerTask.

(** ** Auxiliary definitions for the further properties *)

(** The selectors a rule name stands for, nothing for an unknown name. *)
Definition preset_selectors (filter_name : string) : list Bs4.selector :=
  match lookup_preset PRESET_FILTERS filter_name with
  | Some p => selectors p
  | None => []
  end.

Definition preset_keywords (filter_name : string) : list string :=
  match lookup_preset PRESET_FILTERS filter_name with
  | Some p => keywords p
  | None => []
  end.

(** The test [filter_text] applies to a line. *)
Definition line_is_dropped (compiled : list string) (line : string) : Prop :=
  Py.len (Py.strip line) < 100
  ∧ Exists (λ kw, Py.contains (Py.lower kw) (Py.lower line) = true) compiled.

(** An anchor on which the loop of [_extract_nav_element_info] goes on:
    it is skipped, or its href resolves. *)
Definition anchor_passes (page_url : string) (link : Bs4.located) : bool :=
  match Bs4.get link.2 "href" with
  | Some (AttrStr href_) =>
      if negb (Py.is_empty href_) && negb (Py.is_empty (Bs4.get_text_strip link.2))
      then match Urllib.urljoin page_url href_ with
           | Ok _ => true
           | Raise _ => false
           end
      else true
  | Some (AttrList l) =>
      negb (bool_decide (l ≠ []) && negb (Py.is_empty (Bs4.get_text_strip link.2))
            && negb (Py.is_empty page_url))
  | None => true
  end.

(** Pages that count for [pages_with_navigation]. *)
Definition has_navigation (page_nav : PageNavigation) : Prop :=
  page_links page_nav ≠ [].

#[global] Instance has_navigation_dec page_nav : Decision (has_navigation page_nav).
Proof. unfold has_navigation. apply _. Defined.

(** A selector soupsieve accepts. *)
Definition is_valid_selector (sel : Bs4.selector) : bool :=
  match sel with
  | Bs4.Sel _ => true
  | Bs4.Invalid _ => false
  end.

(** ** [_filter_by_keywords] *)

Module ContentFilter.
Section with_re.
(** [re.compile(keyword, re.IGNORECASE)]: the [search] of the compiled
    pattern as a test on strings, or the [re.error] of a keyword that
    is not a regular expression. *)
Variable re_compile_ignorecase : string → result (string → bool).

(** [soup.find_all(text=pattern)]: the positions of the non-empty
    strings of the document in which the pattern is found, in document
    order. *)
Definition find_all_text (search : string → bool) (soup : Bs4.node)
  : list (list nat) :=
  (filter (λ ps : list nat * string,
             negb (Py.is_empty ps.2) && search ps.2 = true)
          (Bs4.string_positions soup)).*1.

(** Body of the [for element in elements] loop (lines 202-207).  The
    state is the positions decomposed so far in this loop and
    [removed_count]; [soup] is the document as it was when [elements]
    was computed.  A string that went with an element decomposed
    earlier in the loop has lost its [parent] attribute. *)
Definition keyword_step (soup : Bs4.node) (keyword : string)
    (st : list (list nat) * nat) (element : list nat)
  : result (list (list nat) * nat) :=
  if Bs4.is_destroyed st.1 element
  then Raise (OtherException
                "AttributeError: 'NavigableString' object has no attribute 'parent'")
  else
    let q := removelast element in
    match Bs4.node_at soup q with
    | Some p =>
        let parent := Bs4.prune (Bs4.under q st.1) p in
        if negb (Py.is_empty (Bs4.name_of parent))
           && _should_remove_by_keyword parent keyword
        then Ok (st.1 ++ [q], S st.2)
        else Ok st
    | None => Ok st
    end.

(** Body of the [for keyword in self.compiled_keywords] loop on the
    pair of the document and [removed_count]. *)
Definition keyword_round (st : Bs4.node * nat) (keyword : string)
  : result (Bs4.node * nat) :=
  search ← re_compile_ignorecase keyword;
  r ← for_each (keyword_step st.1 keyword) (find_all_text search st.1) ([], st.2);
  Ok (Bs4.tree_after r.1 st.1, r.2).

(** [_filter_by_keywords] (lines 193-209): the document after the pass
    and the number of elements removed, or the exception that leaves
    it. *)
Definition _filter_by_keywords (self : ContentFilter) (soup : Bs4.node)
  : result (Bs4.node * nat) :=
  for_each keyword_round (compiled_keywords self) (soup, 0).
End with_re.
End ContentFilter.









(** * Properties *)

Section dedup.
Implicit Types (links pre post : list LinkInfo) (seen : gset string).

Lemma dedup_fold acc seen links :
  (foldl dedup_step (acc, seen) links).1 = acc ++ dedup_from seen links.
Proof.
  revert acc seen. induction links as [|l links IH]; intros acc seen; simpl.
  - by rewrite app_nil_r.
  - unfold dedup_step at 2; simpl. case_decide.
    + apply IH.
    + rewrite IH. by rewrite <- app_assoc.
Qed.

Lemma deduplicate_links_unfold links :
  _deduplicate_links links = dedup_from ∅ links.
Proof. unfold _deduplicate_links. by rewrite dedup_fold. Qed.

Lemma dedup_from_sublist seen links : dedup_from seen links `sublist_of` links.
Proof.
  revert seen. induction links as [|l links IH]; intros seen; simpl.
  - constructor.
  - case_decide; [apply sublist_cons | apply sublist_skip]; apply IH.
Qed.

Lemma dedup_from_keys_fresh seen links e :
  e ∈ dedup_from seen links → link_key e ∉ seen.
Proof.
  revert seen. induction links as [|l links IH]; intros seen; simpl.
  - by intros ?%elem_of_nil.
  - case_decide as Hl.
    + apply IH.
    + intros [->|Hin]%elem_of_cons; [done|].
      apply IH in Hin. set_solver.
Qed.

Lemma dedup_from_NoDup seen links : NoDup (link_key <$> dedup_from seen links).
Proof.
  revert seen. induction links as [|l links IH]; intros seen; simpl.
  - constructor.
  - case_decide as Hl; [apply IH|].
    rewrite fmap_cons. constructor; [|apply IH].
    intros (e & Hk & Hin)%list_elem_of_fmap.
    apply dedup_from_keys_fresh in Hin. set_solver.
Qed.

Lemma dedup_from_union seen (X : gset string) links :
  dedup_from (seen ∪ X) links
  = filter (λ e, link_key e ∉ X) (dedup_from seen links).
Proof.
  revert seen. induction links as [|l links IH]; intros seen; simpl; [done|].
  destruct (decide (link_key l ∈ seen)) as [Hs|Hs].
  - rewrite decide_True by set_solver. apply IH.
  - destruct (decide (link_key l ∈ X)) as [HX|HX].
    + rewrite decide_True by set_solver.
      rewrite filter_cons_False by (intros ?; done).
      rewrite <- IH. f_equal. set_solver.
    + rewrite decide_False by set_solver.
      rewrite filter_cons_True by done.
      f_equal. rewrite <- IH. f_equal. set_solver.
Qed.

Lemma dedup_from_app seen pre post :
  dedup_from seen (pre ++ post)
  = dedup_from seen pre ++ dedup_from (seen ∪ key_set pre) post.
Proof.
  revert seen. induction pre as [|l pre IH]; intros seen; simpl.
  - f_equal. unfold key_set; simpl. set_solver.
  - unfold key_set in *; simpl. case_decide as Hl.
    + rewrite IH. do 2 f_equal. set_solver.
    + simpl. rewrite IH. do 3 f_equal. set_solver.
Qed.

Lemma dedup_from_id seen links :
  NoDup (link_key <$> links) →
  (∀ e, e ∈ links → link_key e ∉ seen) →
  dedup_from seen links = links.
Proof.
  revert seen. induction links as [|l links IH]; intros seen Hnd Hfresh; simpl; [done|].
  rewrite fmap_cons in Hnd. apply NoDup_cons in Hnd as [Hl Hnd].
  rewrite decide_False by (apply Hfresh; left).
  f_equal. apply IH; [done|].
  intros e He. apply not_elem_of_union; split.
  - intros Heq%elem_of_singleton. apply Hl. apply list_elem_of_fmap. eauto.
  - apply Hfresh. by right.
Qed.
End dedup.

Lemma append_inj_r (a b c : string) : a +:+ b = a +:+ c → b = c.
Proof.
  induction a as [|x a IH]; [done|]. intros H. apply IH.
  change (String x (a +:+ b) = String x (a +:+ c)) in H. by injection H.
Qed.

Lemma append_length (a b : string) :
  String.length (a +:+ b) = String.length a + String.length b.
Proof.
  induction a as [|x a IH]; [done|].
  change (S (String.length (a +:+ b)) = S (String.length a + String.length b)).
  by rewrite IH.
Qed.

Lemma append_inj_l (a b c : string) : a +:+ c = b +:+ c → a = b.
Proof.
  intros H.
  assert (String.length a = String.length b) as Hlen.
  { apply (f_equal String.length) in H. rewrite !append_length in H. lia. }
  revert b H Hlen. induction a as [|x a IH]; intros [|y b] H Hlen; try done.
  change (String x (a +:+ c) = String y (b +:+ c)) in H.
  injection H as -> H. f_equal. apply IH; [done|]. simpl in Hlen. lia.
Qed.

Lemma dedup_pair e1 e2 :
  _deduplicate_links [e1; e2]
  = if decide (link_key e2 = link_key e1) then [e1] else [e1; e2].
Proof.
  rewrite deduplicate_links_unfold. cbn [dedup_from].
  rewrite decide_False by set_solver.
  destruct (decide (link_key e2 = link_key e1)) as [Heq|Hne].
  - rewrite decide_True by set_solver. done.
  - rewrite decide_False by set_solver. done.
Qed.

(** C5. [_deduplicate_links] is keyed on [text + "|" + url]: the output
    holds at most one entry per key; the entry at any input position is
    kept exactly when no earlier entry has the same key (whatever its
    other fields are), and every later entry with a key already seen
    contributes nothing; when all keys are distinct the input is returned
    unchanged.  The key is the text, a bar and the URL, compared as they
    are: of two links with the same text and URL the second is dropped
    whatever else differs, and two links that differ in the URL only,
    or in the text only (be it in the case of a letter), are both
    kept. *)
Theorem deduplicate_links_first_wins (links : list LinkInfo) :
  NoDup (link_key <$> _deduplicate_links links)
  ∧ (∀ pre e post, links = pre ++ e :: post →
       _deduplicate_links links
       = _deduplicate_links pre
         ++ (if decide (link_key e ∈ key_set pre) then [] else [e])
         ++ filter (λ x, link_key x ∉ key_set (pre ++ [e]))
                   (_deduplicate_links post))
  ∧ (NoDup (link_key <$> links) → _deduplicate_links links = links)
  ∧ (∀ e, link_key e = text e +:+ "|" +:+ url e)
  ∧ (∀ e1 e2, text e1 = text e2 → url e1 = url e2 →
       _deduplicate_links (links ++ [e1; e2]) = _deduplicate_links (links ++ [e1]))
  ∧ (∀ e1 e2, text e1 = text e2 → url e1 ≠ url e2 →
       _deduplicate_links [e1; e2] = [e1; e2])
  ∧ (∀ e1 e2, url e1 = url e2 → text e1 ≠ text e2 →
       _deduplicate_links [e1; e2] = [e1; e2]).
Proof.
  split; [|split; [|split; [|split; [|split; [|split]]]]].
  - rewrite deduplicate_links_unfold. apply dedup_from_NoDup.
  - intros pre e post ->. rewrite !deduplicate_links_unfold.
    rewrite dedup_from_app. f_equal. simpl.
    assert (Hks : key_set (pre ++ [e]) = {[link_key e]} ∪ key_set pre).
    { unfold key_set. rewrite fmap_app, list_to_set_app_L. simpl. set_solver. }
    destruct (decide (link_key e ∈ key_set pre)) as [Hin|Hin].
    + rewrite decide_True by set_solver. simpl.
      rewrite <- dedup_from_union. f_equal. rewrite Hks. set_solver.
    + rewrite decide_False by set_solver. simpl. f_equal.
      rewrite <- dedup_from_union. f_equal. rewrite Hks. set_solver.
  - intros Hnd. rewrite deduplicate_links_unfold.
    apply dedup_from_id; [done|]. intros; set_solver.
  - done.
  - intros e1 e2 Ht Hu. rewrite !deduplicate_links_unfold, !dedup_from_app.
    f_equal. cbn [dedup_from].
    assert (link_key e2 = link_key e1) as Hk by (unfold link_key; by rewrite Ht, Hu).
    destruct (decide (link_key e1 ∈ _)) as [Hin|Hin].
    + rewrite decide_True by (by rewrite Hk). done.
    + rewrite decide_True by (rewrite Hk; set_solver). done.
  - intros e1 e2 Ht Hu. rewrite dedup_pair, decide_False; [done|].
    unfold link_key. rewrite Ht. intros H%append_inj_r. injection H as H. done.
  - intros e1 e2 Hu Ht. rewrite dedup_pair, decide_False; [done|].
    unfold link_key. rewrite Hu. intros H%append_inj_l. done.
Qed.

(** The same text and URL at another level and under another parent:
    dropped.  Another case of a letter, or another URL: kept. *)
Lemma deduplicate_links_first_wins_witness :
  _deduplicate_links [docs_link; docs_link_nested] = [docs_link]
  ∧ _deduplicate_links [docs_link; docs_link_lowercase]
    = [docs_link; docs_link_lowercase]
  ∧ _deduplicate_links [docs_link; docs_link_other] = [docs_link; docs_link_other].
Proof.
  destruct (deduplicate_links_first_wins []) as (_ & _ & _ & _ & Hsame & Hurl & Htext).
  split; [|split].
  - etrans; [exact (Hsame docs_link docs_link_nested eq_refl eq_refl)|].
    vm_compute. reflexivity.
  - apply Htext; [reflexivity|discriminate].
  - apply Hurl; [reflexivity|discriminate].
Defined.

(** C10. The output of [_deduplicate_links] is a subsequence of its
    input, and deduplicating twice is the same as deduplicating once. *)
Theorem deduplicate_links_sublist_idempotent (links : list LinkInfo) :
  _deduplicate_links links `sublist_of` links
  ∧ _deduplicate_links (_deduplicate_links links) = _deduplicate_links links.
Proof.
  split.
  - rewrite deduplicate_links_unfold. apply dedup_from_sublist.
  - rewrite !deduplicate_links_unfold. apply dedup_from_id.
    + apply dedup_from_NoDup.
    + intros; set_solver.
Qed.

(** ** Python string lemmas *)

Lemma split_not_nil sep s : Py.split sep s ≠ [].
Proof.
  destruct s as [|c s]; simpl; [done|].
  case_decide; [done|]. by destruct (Py.split sep s).
Qed.

Lemma join_cons_nonempty sep p rest :
  rest ≠ [] → Py.join sep (p :: rest) = p +:+ sep +:+ Py.join sep rest.
Proof. by destruct rest. Qed.

Lemma join_split (c : ascii) s :
  Py.join (String c EmptyString) (Py.split c s) = s.
Proof.
  induction s as [|d s IH]; simpl; [done|].
  case_decide as Hd.
  - subst d. rewrite join_cons_nonempty by apply split_not_nil.
    rewrite IH. done.
  - pose proof (split_not_nil c s) as Hne.
    destruct (Py.split c s) as [|w ws]; [done|].
    destruct ws as [|w' ws].
    + simpl in *. by rewrite IH.
    + rewrite join_cons_nonempty by done.
      rewrite join_cons_nonempty in IH by done.
      rewrite <- IH. done.
Qed.

Lemma foldl_append_if {A} (p : A → bool) (acc l : list A) :
  foldl (λ acc x, if p x then acc ++ [x] else acc) acc l
  = acc ++ filter (λ x, p x = true) l.
Proof.
  revert acc. induction l as [|x l IH]; intros acc; simpl.
  - by rewrite app_nil_r.
  - rewrite IH. destruct (p x) eqn:Hp.
    + rewrite filter_cons_True by done. by rewrite <- app_assoc.
    + rewrite filter_cons_False by (by rewrite Hp). done.
Qed.

Lemma filter_all_id {A} (P : A → Prop) `{∀ x, Decision (P x)} (l : list A) :
  (∀ x, x ∈ l → P x) → filter P l = l.
Proof.
  induction l as [|x l IH]; intros HP; [done|].
  rewrite filter_cons_True by (apply HP; left).
  f_equal. apply IH. intros y Hy. apply HP. by right.
Qed.

(** ** [filter_text] and [_should_remove_by_keyword] *)

Lemma line_should_keep_spec kws line :
  line_should_keep kws line = true
  ↔ ¬ (Py.len (Py.strip line) < 100
       ∧ Exists (λ kw, Py.contains (Py.lower kw) (Py.lower line) = true) kws).
Proof.
  induction kws as [|kw kws IH]; simpl.
  - split; [|done]. intros _ [_ H]. by apply Exists_nil in H.
  - destruct (Py.contains (Py.lower kw) (Py.lower line)) eqn:Hc.
    + destruct (Nat.ltb_spec (Py.len (Py.strip line)) 100) as [Hlt|Hge].
      * split; [done|]. intros H. exfalso. apply H. split; [done|].
        by apply Exists_cons_hd.
      * rewrite IH. split; intros H [Hlt _]; lia.
    + rewrite IH. split; intros H [Hlt Hex]; apply H; split; try done.
      * apply Exists_cons in Hex as [Hex|Hex]; [congruence|done].
      * by apply Exists_cons_tl.
Qed.

Lemma filter_text_lines self text_content :
  filter_text self text_content
  = Py.join newline
      (filter (λ line, line_should_keep (compiled_keywords self) line = true)
              (Py.split "010"%char text_content)).
Proof.
  unfold filter_text.
  destruct (Py.is_empty text_content) eqn:He; simpl.
  - destruct text_content; [|done]. simpl.
    rewrite filter_cons. case_decide; [done|]. done.
  - case_bool_decide as Hk.
    + rewrite Hk. rewrite filter_all_id by done. symmetry. apply join_split.
    + by rewrite foldl_append_if.
Qed.



(** ** [filter_html] *)

(** C7. [filter_html] returns a string for every input and every
    behaviour of the parser, the keyword pass and the serialiser: an
    empty input comes back unchanged with zero removals, and when the
    parser (or any later step of the [try] block) raises, the original
    input is returned unmodified. *)
Theorem filter_html_absorbs_failures
    (BeautifulSoup : string → result Bs4.node)
    (str_soup : Bs4.node → result string)
    (keyword_pass : list string → Bs4.node → result (Bs4.node * nat))
    (self : ContentFilter) (html_content : string) :
  (Py.is_empty html_content = true →
   filter_html_counted BeautifulSoup str_soup keyword_pass self html_content
   = (html_content, 0))
  ∧ (∀ e, BeautifulSoup html_content = Raise e →
       filter_html BeautifulSoup str_soup keyword_pass self html_content
       = html_content)
  ∧ (∀ e, filter_html_try BeautifulSoup str_soup keyword_pass self html_content
          = Raise e →
       filter_html BeautifulSoup str_soup keyword_pass self html_content
       = html_content)
  ∧ (∀ out n, Py.is_empty html_content = false →
       filter_html_try BeautifulSoup str_soup keyword_pass self html_content
       = Ok (out, n) →
       filter_html BeautifulSoup str_soup keyword_pass self html_content = out).
Proof.
  unfold filter_html, filter_html_counted.
  split; [|split; [|split]].
  - by intros ->.
  - intros e He. destruct (Py.is_empty html_content); [done|].
    unfold filter_html_try. rewrite He. done.
  - intros e He. destruct (Py.is_empty html_content); [done|]. by rewrite He.
  - intros out n -> ->. done.
Qed.

(** With a parser that rejects the markup, and with a serialiser that
    fails after a successful parse, the input comes back as it was. *)
Lemma filter_html_absorbs_failures_witness :
  filter_html_counted rejecting_parser (λ _, Ok "x") (λ _ soup, Ok (soup, 0))
    create_default_filter EmptyString = (EmptyString, 0)
  ∧ filter_html rejecting_parser (λ _, Ok "x") (λ _ soup, Ok (soup, 0))
      create_default_filter "<p>unclosed" = "<p>unclosed"
  ∧ filter_html (constant_parser short_element)
      (λ _, Raise (OtherException "RecursionError")) (λ _ soup, Ok (soup, 0))
      create_default_filter "<p>our ads partners</p>" = "<p>our ads partners</p>".
Proof.
  split; [|split].
  - destruct (filter_html_absorbs_failures rejecting_parser (λ _, Ok "x")
                (λ _ soup, Ok (soup, 0)) create_default_filter EmptyString)
      as (H & _).
    apply H. reflexivity.
  - destruct (filter_html_absorbs_failures rejecting_parser (λ _, Ok "x")
                (λ _ soup, Ok (soup, 0)) create_default_filter "<p>unclosed")
      as (_ & H & _).
    apply (H (OtherException "ParserRejectedMarkup")). reflexivity.
  - destruct (filter_html_absorbs_failures (constant_parser short_element)
                (λ _, Raise (OtherException "RecursionError"))
                (λ _ soup, Ok (soup, 0)) create_default_filter
                "<p>our ads partners</p>")
      as (_ & _ & H & _).
    apply (H (OtherException "RecursionError")). vm_compute. reflexivity.
Defined.

(** ** The class list written out, and the token [menu] *)

Lemma app_String c x y : String c x +:+ y = String c (x +:+ y).
Proof. done. Qed.












(** ** [_build_navigation_structure] *)

Lemma group_step_lookup levels link l :
  default [] (group_step levels link !! l)
  = default [] (levels !! l) ++ (if decide (level link = l) then [link] else []).
Proof.
  unfold group_step. destruct (decide (level link = l)) as [<-|Hne].
  - by rewrite lookup_insert_eq.
  - rewrite lookup_insert_ne by done. by rewrite app_nil_r.
Qed.

Lemma group_fold_lookup levels links l :
  default [] (foldl group_step levels links !! l)
  = default [] (levels !! l) ++ filter (λ e, level e = l) links.
Proof.
  revert levels. induction links as [|x links IH]; intros levels; simpl.
  - by rewrite app_nil_r.
  - rewrite IH, group_step_lookup, filter_cons.
    destruct (decide (level x = l)); simpl; by rewrite <- app_assoc.
Qed.

Lemma group_fold_is_Some levels links l :
  is_Some (foldl group_step levels links !! l)
  ↔ is_Some (levels !! l) ∨ ∃ e, e ∈ links ∧ level e = l.
Proof.
  revert levels. induction links as [|x links IH]; intros levels; simpl.
  - split; [by left|]. intros [?|(e & He & _)]; [done|]. by apply elem_of_nil in He.
  - rewrite IH. unfold group_step at 1.
    destruct (decide (level x = l)) as [<-|Hne].
    + rewrite lookup_insert_eq. split; [|by eauto].
      intros _. right. exists x. split; [left|done].
    + rewrite lookup_insert_ne by done. split.
      * intros [?|(e & He & Hl)]; [by left|]. right. exists e. split; [by right|done].
      * intros [?|(e & He & Hl)]; [by left|].
        apply elem_of_cons in He as [->|He]; [done|]. right. eauto.
Qed.

Lemma group_by_level_lookup links l :
  default [] (group_by_level links !! l) = filter (λ e, level e = l) links.
Proof. unfold group_by_level. by rewrite group_fold_lookup, lookup_empty. Qed.

Lemma sorted_keys_elem links l :
  l ∈ sorted_keys (group_by_level links) ↔ ∃ e, e ∈ links ∧ level e = l.
Proof.
  unfold sorted_keys. rewrite merge_sort_Permutation.
  rewrite list_elem_of_fmap. split.
  - intros ([k v] & -> & Hkv). simpl. apply elem_of_map_to_list in Hkv.
    assert (is_Some (group_by_level links !! k)) as Hs by eauto.
    apply group_fold_is_Some in Hs as [Hs|Hs]; [|done].
    rewrite lookup_empty in Hs. by destruct Hs.
  - intros He.
    assert (is_Some (group_by_level links !! l)) as [v Hv].
    { apply group_fold_is_Some. by right. }
    exists (l, v). split; [done|]. by apply elem_of_map_to_list.
Qed.

Lemma sorted_keys_NoDup levels : NoDup (sorted_keys levels).
Proof.
  unfold sorted_keys. rewrite merge_sort_Permutation. apply NoDup_fst_map_to_list.
Qed.

Lemma sorted_keys_sorted levels : StronglySorted (≤) (sorted_keys levels).
Proof. unfold sorted_keys. apply StronglySorted_merge_sort; apply _. Qed.

Lemma foldl_snoc_map {A B} (f : A → B) (acc : list B) (l : list A) :
  foldl (λ acc x, acc ++ [f x]) acc l = acc ++ (f <$> l).
Proof.
  revert acc. induction l as [|x l IH]; intros acc; simpl.
  - by rewrite app_nil_r.
  - rewrite IH. by rewrite <- app_assoc.
Qed.

Lemma foldl_blocks {A B} (block : A → list B) (acc : list B) (keys : list A) :
  foldl (λ acc k, acc ++ block k) acc keys = acc ++ (keys ≫= block).
Proof.
  revert acc. induction keys as [|k keys IH]; intros acc; simpl.
  - by rewrite app_nil_r.
  - rewrite IH. by rewrite <- app_assoc.
Qed.

Lemma foldl_pointwise {A B} (f g : A → B → A) (a : A) (l : list B) :
  (∀ a b, f a b = g a b) → foldl f a l = foldl g a l.
Proof.
  intros Hfg. revert a. induction l as [|x l IH]; intros a; simpl; [done|].
  by rewrite Hfg, IH.
Qed.

(** The structure is the concatenation, over the levels in ascending
    order, of the links of that level in input order. *)
Lemma build_navigation_structure_blocks links :
  _build_navigation_structure links
  = sorted_keys (group_by_level links)
      ≫= (λ lvl, structure_item lvl <$> filter (λ e, level e = lvl) links).
Proof.
  unfold _build_navigation_structure.
  rewrite <- (app_nil_l (_ ≫= _)). rewrite <- foldl_blocks.
  apply foldl_pointwise. intros acc lvl.
  by rewrite foldl_snoc_map, group_by_level_lookup.
Qed.

Lemma blocks_levels (f : nat → list LinkInfo) keys it :
  it ∈ keys ≫= (λ lvl, structure_item lvl <$> f lvl) → s_level it ∈ keys.
Proof.
  intros (lvl & Hit & Hl)%list_elem_of_bind.
  apply list_elem_of_fmap in Hit as (e & -> & _). done.
Qed.

Lemma blocks_sorted (f : nat → list LinkInfo) keys :
  StronglySorted (≤) keys →
  StronglySorted (≤) (s_level <$> (keys ≫= (λ lvl, structure_item lvl <$> f lvl))).
Proof.
  induction 1 as [|k keys Hs IH Hle]; [constructor|].
  rewrite bind_cons, fmap_app. apply StronglySorted_app_2; [| |done].
  - intros a b (ia & -> & Ha)%list_elem_of_fmap (ib & -> & Hb)%list_elem_of_fmap.
    apply list_elem_of_fmap in Ha as (e & -> & _). simpl.
    apply blocks_levels in Hb. rewrite Forall_forall in Hle. by apply Hle.
  - rewrite <- list_fmap_compose.
    induction (f k) as [|e l IHl]; simpl; constructor; [done|].
    apply Forall_forall. intros x (y & -> & _)%list_elem_of_fmap. done.
Qed.

Lemma blocks_filter (f : nat → list LinkInfo) keys l :
  NoDup keys →
  filter (λ it, s_level it = l) (keys ≫= (λ lvl, structure_item lvl <$> f lvl))
  = if decide (l ∈ keys) then structure_item l <$> f l else [].
Proof.
  induction 1 as [|k keys Hk Hnd IH].
  - rewrite decide_False; [done|]. apply not_elem_of_nil.
  - rewrite bind_cons, filter_app, IH.
    destruct (decide (k = l)) as [->|Hne].
    + rewrite (decide_True (P := l ∈ l :: keys)) by left.
      rewrite (decide_False (P := l ∈ keys)) by done.
      rewrite app_nil_r. apply filter_all_id.
      intros x (e & -> & _)%list_elem_of_fmap. done.
    + assert (Hnil : filter (λ it, s_level it = l) (structure_item k <$> f k) = []).
      { induction (f k) as [|e l' IHl]; [done|]. simpl.
        rewrite filter_cons_False; done. }
      rewrite Hnil. simpl.
      destruct (decide (l ∈ keys)) as [Hin|Hin].
      * rewrite (decide_True (P := l ∈ k :: keys)); [done|]. by right.
      * rewrite (decide_False (P := l ∈ k :: keys)); [done|].
        intros [?|?]%elem_of_cons; [congruence|done].
Qed.

Lemma build_structure_sorted links :
  StronglySorted (≤) (s_level <$> _build_navigation_structure links).
Proof.
  rewrite build_navigation_structure_blocks.
  apply blocks_sorted, sorted_keys_sorted.
Qed.

Lemma build_structure_level links l :
  filter (λ it, s_level it = l) (_build_navigation_structure links)
  = structure_item l <$> filter (λ e, level e = l) links.
Proof.
  rewrite build_navigation_structure_blocks.
  rewrite blocks_filter by apply sorted_keys_NoDup.
  case_decide as Hin; [done|].
  rewrite sorted_keys_elem in Hin.
  assert (filter (λ e, level e = l) links = []) as ->; [|done].
  destruct (filter (λ e, level e = l) links) as [|e rest] eqn:Hf; [done|].
  exfalso. apply Hin. exists e.
  assert (e ∈ filter (λ e, level e = l) links) as He by (rewrite Hf; left).
  apply list_elem_of_filter in He as [? ?]. done.
Qed.

(** ** [enhance_navigation_extraction] *)

Lemma dedup_no_shared_pair links i j e1 e2 :
  _deduplicate_links links !! i = Some e1 →
  _deduplicate_links links !! j = Some e2 →
  text e1 = text e2 → url e1 = url e2 → i = j.
Proof.
  intros H1 H2 Ht Hu.
  eapply (NoDup_lookup (link_key <$> _deduplicate_links links)).
  - rewrite deduplicate_links_unfold. apply dedup_from_NoDup.
  - rewrite list_lookup_fmap, H1. done.
  - rewrite list_lookup_fmap, H2. simpl. unfold link_key. by rewrite Ht, Hu.
Qed.

#[local] Arguments aggregate_page : simpl never.

Lemma aggregate_loop parser extractor crawl_results pages count all_links st :
  for_each (λ st result,
              page_nav ← extract_navigation_from_crawl_result parser extractor result;
              Ok (aggregate_page page_nav st))
           crawl_results (pages, count, all_links) = Ok st →
  ∃ new_pages,
    st.1.1 = pages ++ new_pages
    ∧ st.2 = all_links ++ concat (page_links <$> new_pages)
    ∧ pn_url <$> new_pages = cr_url <$> crawl_results.
Proof.
  revert pages count all_links.
  induction crawl_results as [|cr rest IH]; intros pages count all_links; simpl.
  - intros [= <-]. exists []. simpl. by rewrite !app_nil_r.
  - destruct (extract_navigation_from_crawl_result parser extractor cr)
      as [page_nav|e] eqn:Hp; simpl; [|done].
    assert (pn_url page_nav = cr_url cr) as Hurl.
    { unfold extract_navigation_from_crawl_result in Hp.
      destruct (Py.is_empty (cr_cleaned_html cr)).
      - by injection Hp as <-.
      - destruct (extract_navigation_from_html _ _ _ _); simpl in Hp; [|done].
        by injection Hp as <-. }
    assert (∃ count', aggregate_page page_nav (pages, count, all_links)
                      = (pages ++ [page_nav], count', all_links ++ page_links page_nav))
      as [count' ->].
    { unfold aggregate_page, page_links.
      destruct (enhanced_navigation page_nav) as [nav|].
      - case_bool_decide as Hne; [by eexists|].
        rewrite Hne, app_nil_r. by eexists.
      - rewrite app_nil_r. by eexists. }
    intros Hrest. apply IH in Hrest as (new_pages & H1 & H2 & H3).
    exists (page_nav :: new_pages).
    rewrite H1, H2, !fmap_cons, H3, Hurl, <- !app_assoc. done.
Qed.

(** C9. Site aggregation keeps the per-page results in page order,
    concatenates their [all_nav_links] in that order and deduplicates
    the concatenation, so no two entries of the site-wide list share a
    (text, url) pair; the site structure lists these links by ascending
    level and, inside a level, in the order of the deduplicated list:
    the items of a level are, one for one and in that order, the text,
    URL, level and parent text of the links of that level, with the
    type [navigation]. *)
Theorem site_aggregation (parser : string → result Bs4.node)
    (crawl_results : list CrawlResult) (base : string) (r : EnhancedResults) :
  enhance_navigation_extraction parser crawl_results base = Ok r →
  pn_url <$> page_navigations r = cr_url <$> crawl_results
  ∧ unique_navigation_links r
    = _deduplicate_links (concat (page_links <$> page_navigations r))
  ∧ (∀ i j e1 e2,
       unique_navigation_links r !! i = Some e1 →
       unique_navigation_links r !! j = Some e2 →
       text e1 = text e2 → url e1 = url e2 → i = j)
  ∧ StronglySorted (≤) (s_level <$> er_navigation_structure r)
  ∧ (∀ l, filter (λ it, s_level it = l) (er_navigation_structure r)
          = (λ e, mkItem (text e) (url e) l (parent_text e) "navigation")
              <$> filter (λ e, level e = l) (unique_navigation_links r)).
Proof.
  unfold enhance_navigation_extraction.
  destruct (new_extractor base) as [extractor|e]; simpl; [|done].
  destruct (for_each _ crawl_results ([], 0, [])) as [st|e] eqn:Hloop; simpl; [|done].
  apply aggregate_loop in Hloop as (new_pages & H1 & H2 & H3).
  destruct st as [[pages count] all_links]. simpl in *. subst pages all_links.
  intros [= <-]. simpl.
  split; [done|]. split; [done|]. split; [|split].
  - apply dedup_no_shared_pair.
  - apply build_structure_sorted.
  - apply build_structure_level.
Qed.

(** Two pages with the same navigation bar: each link once, and the
    structure with the two items of level 0 in the order of the bar. *)
Lemma site_aggregation_witness :
  match enhance_navigation_extraction (constant_parser welcome_soup) two_pages
          "https://docs.example.com" with
  | Ok r =>
      length (page_navigations r) = 2
      ∧ url <$> unique_navigation_links r
        = ["https://docs.example.com/get-started"; "https://docs.example.com/models"]
      ∧ unique_navigation_links r
        = _deduplicate_links (concat (page_links <$> page_navigations r))
      ∧ filter (λ it, s_level it = 0) (er_navigation_structure r)
        = [ mkItem "Get Started" "https://docs.example.com/get-started" 0 None
              "navigation";
            mkItem "Models" "https://docs.example.com/models" 0 None "navigation" ]
      ∧ er_navigation_structure r
        = [ mkItem "Get Started" "https://docs.example.com/get-started" 0 None
              "navigation";
            mkItem "Models" "https://docs.example.com/models" 0 None "navigation" ]
  | Raise _ => False
  end.
Proof.
  pose proof (site_aggregation (constant_parser welcome_soup) two_pages
                "https://docs.example.com") as H.
  destruct (enhance_navigation_extraction (constant_parser welcome_soup) two_pages
              "https://docs.example.com") as [r|e] eqn:E.
  - destruct (H r eq_refl) as (_ & Hu & _ & _ & Hs).
    split; [|split; [|split; [exact Hu|split]]].
    + vm_compute in E. injection E as <-. reflexivity.
    + vm_compute in E. injection E as <-. reflexivity.
    + rewrite (Hs 0). vm_compute in E. injection E as <-. reflexivity.
    + vm_compute in E. injection E as <-. reflexivity.
  - vm_compute in E. discriminate E.
Defined.

(** ** [_is_valid_internal_url] and [_extract_nav_element_info] *)

Lemma is_empty_false s : Py.is_empty s = false ↔ s ≠ EmptyString.
Proof. by destruct s. Qed.

Lemma is_valid_internal_url_spec self u :
  _is_valid_internal_url self u = true
  ↔ ∃ parsed,
      Urllib.urlparse u = Ok parsed
      ∧ Urllib.netloc parsed = domain self
      ∧ (Urllib.scheme parsed = "http" ∨ Urllib.scheme parsed = "https")
      ∧ ∀ ext, ext ∈ asset_extensions → Py.contains ext (Py.lower u) = false.
Proof.
  unfold _is_valid_internal_url.
  destruct (Urllib.urlparse u) as [parsed|e]; [|split; [done|by intros (? & ? & _)]].
  rewrite !andb_true_iff, !bool_decide_eq_true, negb_true_iff.
  rewrite <- not_true_iff_false, existsb_exists.
  split.
  - intros [[Hn Hs] Hx]. exists parsed. split; [done|]. split; [done|]. split.
    + set_solver.
    + intros ext Hext. apply not_true_iff_false. intros Hc. apply Hx.
      exists ext. split; [by apply list_elem_of_In|done].
  - intros (p & [= <-] & Hn & Hs & Hx). split; [split; [done|set_solver]|].
    intros (ext & Hin & Hc). apply list_elem_of_In in Hin.
    rewrite (Hx ext Hin) in Hc. done.
Qed.

Lemma extract_link_ok self nav page_url acc link acc' :
  extract_link self nav page_url acc link = Ok acc' →
  acc' = acc ++ option_list (link_entry self nav page_url link).
Proof.
  unfold extract_link, link_entry.
  destruct (Bs4.get link.2 "href") as [[href_|l]|]; simpl.
  - destruct (negb (Py.is_empty href_) && negb (Py.is_empty (Bs4.get_text_strip link.2))).
    + destruct (Urllib.urljoin page_url href_) as [u|e]; simpl; [|done].
      destruct (_is_valid_internal_url self u); intros [= <-]; simpl; [done|].
      by rewrite app_nil_r.
    + intros [= <-]. by rewrite app_nil_r.
  - destruct (_ && _); [done|]. intros [= <-]. by rewrite app_nil_r.
  - intros [= <-]. by rewrite app_nil_r.
Qed.

Lemma extract_links_loop self nav page_url anchors acc r :
  for_each (extract_link self nav page_url) anchors acc = Ok r →
  r = acc ++ omap (link_entry self nav page_url) anchors.
Proof.
  revert acc. induction anchors as [|a anchors IH]; intros acc; simpl.
  - intros [= <-]. by rewrite app_nil_r.
  - destruct (extract_link self nav page_url acc a) as [acc'|e] eqn:Ha; simpl; [|done].
    intros Hr. apply IH in Hr. apply extract_link_ok in Ha. subst.
    rewrite <- app_assoc. f_equal.
    by destruct (link_entry self nav page_url a).
Qed.

Lemma extract_nav_element_info_ok self nav_element page_url selector info :
  _extract_nav_element_info self nav_element page_url selector = Ok info →
  nav_selector info = selector
  ∧ nav_links info
    = omap (link_entry self nav_element.2 page_url)
        (Bs4.find_all_a_href nav_element.1 nav_element.2).
Proof.
  unfold _extract_nav_element_info.
  destruct (for_each _ _ []) as [links|e] eqn:Hl; simpl; [|done].
  intros [= <-]. simpl. apply extract_links_loop in Hl. done.
Qed.

Lemma link_entry_Some self nav page_url link e :
  link_entry self nav page_url link = Some e
  ↔ ∃ href_ full_url,
      Bs4.get link.2 "href" = Some (AttrStr href_)
      ∧ href_ ≠ EmptyString
      ∧ Bs4.get_text_strip link.2 ≠ EmptyString
      ∧ Urllib.urljoin page_url href_ = Ok full_url
      ∧ _is_valid_internal_url self full_url = true
      ∧ e = link_info link nav href_ (Bs4.get_text_strip link.2) full_url.
Proof.
  unfold link_entry. split.
  - destruct (Bs4.get link.2 "href") as [[href_|l]|]; [|done|done].
    destruct (Py.is_empty href_) eqn:Hh; simpl; [done|].
    destruct (Py.is_empty (Bs4.get_text_strip link.2)) eqn:Ht; simpl; [done|].
    destruct (Urllib.urljoin page_url href_) as [u|] eqn:Hj; [|done].
    destruct (_is_valid_internal_url self u) eqn:Hv; [|done].
    intros [= <-]. exists href_, u.
    apply is_empty_false in Hh. apply is_empty_false in Ht. done.
  - intros (href_ & u & -> & Hh & Ht & -> & -> & ->).
    apply is_empty_false in Hh. apply is_empty_false in Ht. by rewrite Hh, Ht.
Qed.

(** C1 (as amended).  The links of a navigation candidate are built
    from the anchors with a non-empty href and non-empty text, and such
    an anchor is kept exactly when its resolved URL parses with the
    extractor's site domain as network location, with scheme http or
    https, and holds none of the strings .pdf, .jpg, .png, .gif, .css,
    .js, .ico anywhere in its lower-cased form; the other anchors
    contribute nothing to the result. *)
Theorem nav_links_validity_filter (self : EnhancedNavigationExtractor)
    (nav_element : Bs4.located) (page_url selector : string) (info : NavInfo) :
  _extract_nav_element_info self nav_element page_url selector = Ok info →
  (∀ e, e ∈ nav_links info →
     ∃ link href_ full_url,
       link ∈ Bs4.find_all_a_href nav_element.1 nav_element.2
       ∧ Bs4.get link.2 "href" = Some (AttrStr href_)
       ∧ href_ ≠ EmptyString
       ∧ Bs4.get_text_strip link.2 ≠ EmptyString
       ∧ Urllib.urljoin page_url href_ = Ok full_url
       ∧ e = link_info link nav_element.2 href_ (Bs4.get_text_strip link.2) full_url)
  ∧ (∀ link href_ full_url,
       link ∈ Bs4.find_all_a_href nav_element.1 nav_element.2 →
       Bs4.get link.2 "href" = Some (AttrStr href_) →
       href_ ≠ EmptyString →
       Bs4.get_text_strip link.2 ≠ EmptyString →
       Urllib.urljoin page_url href_ = Ok full_url →
       (link_info link nav_element.2 href_ (Bs4.get_text_strip link.2) full_url
          ∈ nav_links info
        ↔ ∃ parsed,
            Urllib.urlparse full_url = Ok parsed
            ∧ Urllib.netloc parsed = domain self
            ∧ (Urllib.scheme parsed = "http" ∨ Urllib.scheme parsed = "https")
            ∧ ∀ ext, ext ∈ asset_extensions →
                     Py.contains ext (Py.lower full_url) = false)).
Proof.
  intros [_ Hlinks]%extract_nav_element_info_ok. rewrite Hlinks. split.
  - intros e (link & Hin & He)%list_elem_of_omap.
    apply link_entry_Some in He as (h & u & ? & ? & ? & ? & ? & ?).
    exists link, h, u. done.
  - intros link h u Hin Hget Hh Ht Hj.
    rewrite <- is_valid_internal_url_spec. split.
    + intros (link' & Hin' & He)%list_elem_of_omap.
      apply link_entry_Some in He as (h' & u' & _ & _ & _ & _ & Hv & Heq).
      apply (f_equal url) in Heq. simpl in Heq. by subst u'.
    + intros Hv. apply list_elem_of_omap. exists link. split; [done|].
      apply link_entry_Some. exists h, u. done.
Qed.

(** On a navigation bar with an internal link, an external link and an
    image link, only the internal one is kept. *)
Lemma nav_links_validity_filter_witness :
  match _extract_nav_element_info example_extractor
          ([Bs4.BeautifulSoupRoot [mixed_nav]], mixed_nav)
          "https://example.com/welcome" "nav" with
  | Ok info =>
      url <$> nav_links info = ["https://example.com/docs/"]
      ∧ ∀ e, e ∈ nav_links info →
          ∃ link href_ full_url,
            link ∈ Bs4.find_all_a_href [Bs4.BeautifulSoupRoot [mixed_nav]] mixed_nav
            ∧ Bs4.get link.2 "href" = Some (AttrStr href_)
            ∧ href_ ≠ EmptyString
            ∧ Bs4.get_text_strip link.2 ≠ EmptyString
            ∧ Urllib.urljoin "https://example.com/welcome" href_ = Ok full_url
            ∧ e = link_info link mixed_nav href_ (Bs4.get_text_strip link.2) full_url
  | Raise _ => False
  end.
Proof.
  pose proof (nav_links_validity_filter example_extractor
                ([Bs4.BeautifulSoupRoot [mixed_nav]], mixed_nav)
                "https://example.com/welcome" "nav") as H.
  destruct (_extract_nav_element_info example_extractor
              ([Bs4.BeautifulSoupRoot [mixed_nav]], mixed_nav)
              "https://example.com/welcome" "nav") as [info|e] eqn:E.
  - destruct (H info eq_refl) as [H1 _]. split; [|exact H1].
    vm_compute in E. injection E as <-. reflexivity.
  - vm_compute in E. discriminate E.
Defined.

(** C1, the claim as stated fails: the URL below is on the site host,
    uses https and its path ends in no asset extension, so the rule of
    the specification accepts it; the code drops the link because the
    URL contains ".js". *)
Lemma internal_link_with_js_in_path_is_dropped :
  spec_valid_link "example.com" "https://example.com/guides/node.js/intro" = true
  ∧ Urllib.urljoin "https://example.com/welcome" "/guides/node.js/intro"
    = Ok "https://example.com/guides/node.js/intro"
  ∧ _is_valid_internal_url example_extractor
      "https://example.com/guides/node.js/intro" = false
  ∧ nav_links <$> _extract_nav_element_info example_extractor
                    ([Bs4.BeautifulSoupRoot [nodejs_nav]], nodejs_nav)
                    "https://example.com/welcome" "nav"
    = Ok [].
Proof. repeat split; vm_compute; reflexivity. Qed.

(** ** The document tree *)

Lemma node_ind_nested (P : Bs4.node → Prop) :
  (∀ s, P (Bs4.NavigableString s)) →
  (∀ name attrs contents, Forall P contents → P (Bs4.Tag name attrs contents)) →
  ∀ n, P n.
Proof.
  intros Hs Ht. fix IH 1. intros [s|name attrs contents].
  - apply Hs.
  - apply Ht. induction contents as [|c cs IHcs]; constructor; [apply IH|apply IHcs].
Qed.

Lemma descendants_Tag anc name attrs contents :
  Bs4.descendants anc (Bs4.Tag name attrs contents)
  = contents ≫= (λ c, (Bs4.Tag name attrs contents :: anc, c)
                       :: Bs4.descendants (Bs4.Tag name attrs contents :: anc) c).
Proof.
  simpl. generalize (Bs4.Tag name attrs contents :: anc). intros anc'.
  induction contents as [|c cs IH]; [done|]. rewrite bind_cons, <- IH. done.
Qed.

Lemma size_Tag name attrs contents :
  Bs4.size (Bs4.Tag name attrs contents) = S (sum_list (Bs4.size <$> contents)).
Proof.
  simpl. f_equal. induction contents as [|c cs IH]; [done|].
  rewrite fmap_cons. simpl. by rewrite IH.
Qed.








(** ** [extract_navigation_from_html] *)

Lemma head_app_keep {A} (l1 l2 : list A) :
  head (l1 ++ l2) = match head l1 with Some x => Some x | None => head l2 end.
Proof. by destruct l1. Qed.

Ltac step_bind := cbn [mbind result_bind].

Lemma for_each_cons {A S} (body : S → A → result S) x xs acc :
  for_each body (x :: xs) acc = body acc x ≫= for_each body xs.
Proof. done. Qed.

Lemma scan_element_ok self page_url sel st el st1 :
  scan_element self page_url sel st el = Ok st1 →
  ∃ info,
    _extract_nav_element_info self el page_url (Bs4.show sel) = Ok info
    ∧ st1.1 = st.1 ++ keep_candidates [info]
    ∧ st1.2 = match st.2 with
              | Some p => Some p
              | None => head (keep_candidates [info])
              end.
Proof.
  unfold scan_element, keep_candidates.
  destruct (_extract_nav_element_info self el page_url (Bs4.show sel))
    as [info|e]; step_bind; [|done].
  case_bool_decide as Hne; intros [= <-]; exists info; cbn [fst snd];
    rewrite filter_cons, filter_nil.
  - rewrite decide_True by done. done.
  - rewrite decide_False by (intros ?; done). rewrite app_nil_r.
    split; [done|]. split; [done|]. by destruct st.2.
Qed.

Lemma scan_element_loop self page_url sel els st st' :
  for_each (scan_element self page_url sel) els st = Ok st' →
  ∃ infos,
    Forall2 (λ el info,
               _extract_nav_element_info self el page_url (Bs4.show sel) = Ok info)
            els infos
    ∧ st'.1 = st.1 ++ keep_candidates infos
    ∧ st'.2 = match st.2 with
              | Some p => Some p
              | None => head (keep_candidates infos)
              end.
Proof.
  revert st. induction els as [|el els IH]; intros st.
  - intros [= <-]. exists []. rewrite app_nil_r. split; [constructor|].
    split; [done|]. by destruct st.2.
  - rewrite for_each_cons.
    destruct (scan_element self page_url sel st el) as [st1|e] eqn:Hel;
      step_bind; [|done].
    apply scan_element_ok in Hel as (info & Hinfo & H1 & H2).
    intros Hrest. apply IH in Hrest as (infos & HF & H3 & H4).
    exists (info :: infos). split; [by constructor|].
    unfold keep_candidates in *.
    change (info :: infos) with ([info] ++ infos).
    rewrite filter_app, head_app_keep, H3, H4, H1, H2, <- app_assoc.
    split; [done|]. destruct st.2; [done|].
    by destruct (head (filter _ [info])).
Qed.

Lemma scan_selector_loop self soup page_url sels st st' :
  for_each (scan_selector self soup page_url) sels st = Ok st' →
  ∃ infos,
    Forall2 (λ se info,
               _extract_nav_element_info self se.2 page_url (Bs4.show se.1) = Ok info)
            (scan_order_of sels soup) infos
    ∧ st'.1 = st.1 ++ keep_candidates infos
    ∧ st'.2 = match st.2 with
              | Some p => Some p
              | None => head (keep_candidates infos)
              end.
Proof.
  revert st. induction sels as [|sel sels IH]; intros st.
  - simpl. intros [= <-]. exists []. rewrite app_nil_r. split; [constructor|].
    split; [done|]. by destruct st.2.
  - unfold scan_order_of. rewrite bind_cons. fold (scan_order_of sels soup).
    rewrite for_each_cons.
    destruct (scan_selector self soup page_url st sel) as [st1|e] eqn:Hel;
      step_bind; [|done].
    unfold scan_selector in Hel.
    destruct (Bs4.select sel [] soup) as [els|e]; cbn [mbind result_bind] in Hel;
      [|done].
    apply scan_element_loop in Hel as (infos1 & HF1 & H1 & H2).
    intros Hrest. apply IH in Hrest as (infos2 & HF2 & H3 & H4).
    exists (infos1 ++ infos2). split; [|split].
    + apply Forall2_app; [|done]. apply Forall2_fmap_l.
      eapply Forall2_impl; [exact HF1|]. done.
    + unfold keep_candidates in *. rewrite filter_app, H3, H1, <- app_assoc. done.
    + unfold keep_candidates in *. rewrite filter_app, head_app_keep, H4, H2.
      destruct st.2; [done|]. by destruct (head (filter _ infos1)).
Qed.

Lemma extract_navigation_from_soup_ok self soup page_url data :
  extract_navigation_from_soup self soup page_url = Ok data →
  ∃ infos,
    Forall2 (λ se info,
               _extract_nav_element_info self se.2 page_url (Bs4.show se.1) = Ok info)
            (scan_order self soup) infos
    ∧ found_navigations data = keep_candidates infos
    ∧ primary_navigation data = head (keep_candidates infos)
    ∧ all_nav_links data
      = _deduplicate_links (concat (nav_links <$> found_navigations data)).
Proof.
  unfold extract_navigation_from_soup.
  destruct (for_each _ (nav_selectors self) ([], None)) as [st|e] eqn:Hl; simpl; [|done].
  apply scan_selector_loop in Hl as (infos & HF & H1 & H2). simpl in *.
  intros [= <-]. simpl. exists infos. rewrite H1, H2. done.
Qed.

(** C6. The candidates are the scanned elements that yield at least one
    link, in scan order (the 19 selectors in priority order, document
    order inside one selector); [primary_navigation] is the first of
    them, so a candidate without links is never primary; and when some
    element matched by [nav[role=navigation]] yields a link, the primary
    candidate comes from that selector, whatever the later selectors
    (such as [.menu]) match. *)
Theorem primary_is_first_candidate (self : EnhancedNavigationExtractor)
    (soup : Bs4.node) (page_url : string) (data : NavigationData) :
  extract_navigation_from_soup self soup page_url = Ok data →
  (∃ infos,
     Forall2 (λ se info,
                _extract_nav_element_info self se.2 page_url (Bs4.show se.1) = Ok info)
             (scan_order self soup) infos
     ∧ found_navigations data = filter (λ info, nav_links info ≠ []) infos)
  ∧ primary_navigation data = head (found_navigations data)
  ∧ (∀ p, primary_navigation data = Some p → nav_links p ≠ [])
  ∧ length default_nav_selectors = 19
  ∧ (nav_selectors self = default_nav_selectors →
     ∀ els el info,
       Bs4.select (Bs4.tag_attr_eq "nav" "role" "navigation") [] soup = Ok els →
       el ∈ els →
       _extract_nav_element_info self el page_url
         (Bs4.show (Bs4.tag_attr_eq "nav" "role" "navigation")) = Ok info →
       nav_links info ≠ [] →
       ∃ p, primary_navigation data = Some p
            ∧ nav_selector p = Bs4.show (Bs4.tag_attr_eq "nav" "role" "navigation")).
Proof.
  intros (infos & HF & Hfound & Hprim & _)%extract_navigation_from_soup_ok.
  split; [by exists infos|]. split; [by rewrite Hfound|].
  split; [|split; [done|]].
  - intros p Hp. rewrite Hprim in Hp. apply head_Some_elem_of in Hp.
    unfold keep_candidates in Hp. by apply list_elem_of_filter in Hp as [? _].
  - intros Hsels els el info Hsel Hel Hinfo Hne.
    unfold scan_order, scan_order_of in HF. rewrite Hsels in HF.
    unfold default_nav_selectors in HF. rewrite bind_cons, Hsel in HF.
    apply Forall2_app_inv_l in HF as (infos1 & infos2 & HF1 & _ & ->).
    apply Forall2_fmap_l in HF1.
    assert (info ∈ infos1) as Hin.
    { apply list_elem_of_lookup in Hel as [i Hi].
      destruct (Forall2_lookup_l _ _ _ _ _ HF1 Hi) as (info' & Hi' & Heq).
      assert (Ok info = Ok info') as [= <-] by (rewrite <- Hinfo; exact Heq).
      apply list_elem_of_lookup. eauto. }
    assert (info ∈ filter (λ info, nav_links info ≠ []) infos1) as Hkeep.
    { by apply list_elem_of_filter. }
    rewrite Hprim. unfold keep_candidates. rewrite filter_app, head_app_keep.
    destruct (filter (λ info, nav_links info ≠ []) infos1) as [|p rest] eqn:Hf.
    { by apply elem_of_nil in Hkeep. }
    simpl. exists p. split; [done|].
    assert (p ∈ infos1) as Hp.
    { assert (p ∈ filter (λ info, nav_links info ≠ []) infos1) as Hp'
        by (rewrite Hf; left).
      by apply list_elem_of_filter in Hp' as [_ ?]. }
    apply list_elem_of_lookup in Hp as [j Hj].
    destruct (Forall2_lookup_r _ _ _ _ _ HF1 Hj) as (el' & _ & Hex).
    assert (_extract_nav_element_info self el' page_url
              (Bs4.show (Bs4.tag_attr_eq "nav" "role" "navigation")) = Ok p)
      as Hex' by exact Hex.
    by apply extract_nav_element_info_ok in Hex' as [? _].
Qed.

(** A page where a [.menu] block comes first in the document and a
    [nav role=navigation] second: the primary candidate is the latter. *)
Lemma primary_is_first_candidate_witness :
  match extract_navigation_from_soup example_extractor priority_soup
          "https://example.com/welcome" with
  | Ok data =>
      ∃ p, primary_navigation data = Some p
           ∧ nav_selector p = Bs4.show (Bs4.tag_attr_eq "nav" "role" "navigation")
  | Raise _ => False
  end.
Proof.
  pose proof (primary_is_first_candidate example_extractor priority_soup
                "https://example.com/welcome") as H.
  destruct (extract_navigation_from_soup example_extractor priority_soup
              "https://example.com/welcome") as [data|e] eqn:E.
  - destruct (H data eq_refl) as (_ & _ & _ & _ & Hprio).
    destruct (_extract_nav_element_info example_extractor priority_nav
                "https://example.com/welcome"
                (Bs4.show (Bs4.tag_attr_eq "nav" "role" "navigation")))
      as [info|e] eqn:Einfo.
    + apply (Hprio eq_refl [priority_nav] priority_nav info).
      * vm_compute. reflexivity.
      * left.
      * exact Einfo.
      * vm_compute in Einfo. injection Einfo as <-. discriminate.
    + vm_compute in Einfo. discriminate Einfo.
  - vm_compute in E. discriminate E.
Defined.



(** C3, what the code does.  [extract_navigation_from_html] has no
    handler of its own: an exception of the parser leaves it unchanged,
    and so does the [ValueError] that [urljoin] raises on the href
    [//[] of an otherwise well-formed page. *)
Theorem extraction_propagates_failures (parser : string → result Bs4.node) :
  (∀ self html_content page_url e,
     parser html_content = Raise e →
     extract_navigation_from_html parser self html_content page_url = Raise e)
  ∧ (parser bad_href_html = Ok bad_href_soup →
     ∃ ex,
       new_extractor "https://docs.example.com" = Ok ex
       ∧ extract_navigation_from_html parser ex bad_href_html
           "https://docs.example.com/welcome"
         = Raise (ValueError "Invalid IPv6 URL")).
Proof.
  split.
  - intros self html page_url e He. unfold extract_navigation_from_html.
    by rewrite He.
  - intros Hp. eexists. split; [vm_compute; reflexivity|].
    unfold extract_navigation_from_html. rewrite Hp. vm_compute. reflexivity.
Qed.

Lemma extraction_propagates_failures_witness :
  extract_navigation_from_html rejecting_parser example_extractor "<nav"
    "https://example.com/welcome"
  = Raise (OtherException "ParserRejectedMarkup")
  ∧ ∃ ex,
      new_extractor "https://docs.example.com" = Ok ex
      ∧ extract_navigation_from_html (constant_parser bad_href_soup) ex
          bad_href_html "https://docs.example.com/welcome"
        = Raise (ValueError "Invalid IPv6 URL").
Proof.
  split.
  - destruct (extraction_propagates_failures rejecting_parser) as (H & _).
    apply H. reflexivity.
  - destruct (extraction_propagates_failures (constant_parser bad_href_soup))
      as (_ & H).
    apply H. reflexivity.
Defined.

(** ** The selector pass of [filter_html] *)

Lemma decompose_all_Tag alts anc name attrs contents :
  Bs4.decompose_all alts anc (Bs4.Tag name attrs contents)
  = Bs4.Tag name attrs
      (omap (λ c, if Bs4.matches alts (Bs4.Tag name attrs contents :: anc, c)
                  then None
                  else Some (Bs4.decompose_all alts
                               (Bs4.Tag name attrs contents :: anc) c))
            contents).
Proof.
  simpl. f_equal. generalize (Bs4.Tag name attrs contents :: anc). intros anc'.
  induction contents as [|c cs IH]; [done|]. simpl.
  destruct (Bs4.matches alts (anc', c)); by rewrite IH.
Qed.

Lemma decompose_all_head alts anc n :
  head_of (Bs4.decompose_all alts anc n) = head_of n.
Proof. destruct n; [done|]. by rewrite decompose_all_Tag. Qed.

Lemma match_simple_head s n n' :
  simple_is_static s = true → head_of n = head_of n' →
  Bs4.match_simple s n = Bs4.match_simple s n'.
Proof.
  intros Hs [= _ _ Ha].
  destruct s as [c|i|a op v|]; [| | |done];
    unfold Bs4.match_simple, Bs4.class_tokens, Bs4.get; by rewrite Ha.
Qed.

Lemma match_compound_head c n n' :
  forallb simple_is_static (Bs4.c_rest c) = true → head_of n = head_of n' →
  Bs4.match_compound c n = Bs4.match_compound c n'.
Proof.
  intros Hs Hh. unfold Bs4.match_compound.
  injection Hh as Ht Hn Ha. rewrite Ht, Hn. do 1 f_equal.
  induction (Bs4.c_rest c) as [|s rest IH]; [done|]. simpl in *.
  apply andb_true_iff in Hs as [Hs1 Hs2].
  rewrite IH by done. f_equal. apply match_simple_head; [done|].
  unfold head_of. by rewrite Ht, Hn, Ha.
Qed.

Lemma match_ancestors_heads cs anc anc' :
  forallb (λ c, forallb simple_is_static (Bs4.c_rest c)) cs = true →
  same_heads anc anc' →
  Bs4.match_ancestors cs anc = Bs4.match_ancestors cs anc'.
Proof.
  revert anc anc'. induction cs as [|c cs IH]; intros anc anc' Hs Hh; [done|].
  simpl in Hs. apply andb_true_iff in Hs as [Hc Hcs]. simpl.
  induction Hh as [|a a' anc anc' Ha Hrest IHanc]; [done|].
  rewrite (match_compound_head c a a') by done.
  destruct (Bs4.match_compound c a'); [by apply IH|apply IHanc].
Qed.

Lemma forallb_reverse {A} (p : A → bool) (l : list A) :
  forallb p (reverse l) = forallb p l.
Proof.
  apply eq_true_iff_eq. rewrite !forallb_forall.
  split; intros H x Hx; apply H; apply list_elem_of_In;
    apply list_elem_of_In in Hx; by apply elem_of_reverse.
Qed.

Lemma matches_heads alts d d' :
  selector_is_static (Bs4.Sel alts) = true →
  same_heads d.1 d'.1 → head_of d.2 = head_of d'.2 →
  Bs4.matches alts d = Bs4.matches alts d'.
Proof.
  intros Hs Hanc Hn. unfold Bs4.matches. simpl in Hs.
  induction alts as [|cx alts IH]; [done|]. simpl in *.
  apply andb_true_iff in Hs as [Hcx Halts]. rewrite IH by done. f_equal.
  unfold Bs4.match_complex. rewrite <- forallb_reverse in Hcx.
  destruct (reverse cx) as [|subject left_part]; [done|]. simpl in Hcx.
  apply andb_true_iff in Hcx as [H1 H2].
  rewrite (match_compound_head subject d.2 d'.2) by done.
  by rewrite (match_ancestors_heads left_part d.1 d'.1).
Qed.

(** Every node of the tree after [decompose_all] is a node of the tree
    before that did not match, under ancestors with the same names and
    attributes. *)
Lemma decompose_all_survivors alts n anc anc' d' :
  same_heads anc anc' →
  d' ∈ Bs4.descendants anc' (Bs4.decompose_all alts anc n) →
  ∃ d, d ∈ Bs4.descendants anc n
       ∧ same_heads d.1 d'.1 ∧ head_of d.2 = head_of d'.2
       ∧ Bs4.matches alts d = false.
Proof.
  revert anc anc' d'.
  induction n as [s|name attrs contents IH] using node_ind_nested;
    intros anc anc' d' Hh.
  - by intros ?%elem_of_nil.
  - rewrite decompose_all_Tag, !descendants_Tag.
    set (N := Bs4.Tag name attrs contents).
    set (N' := Bs4.Tag name attrs _).
    assert (same_heads (N :: anc) (N' :: anc')) as Hh' by (by constructor).
    intros (c' & Hd' & Hc')%list_elem_of_bind.
    apply list_elem_of_omap in Hc' as (c & Hc & Hkeep).
    destruct (Bs4.matches alts (N :: anc, c)) eqn:Hm; [done|].
    injection Hkeep as <-.
    apply elem_of_cons in Hd' as [->|Hd'].
    + exists (N :: anc, c). split; [|split; [done|split; [|done]]].
      * apply list_elem_of_bind. exists c. split; [left|done].
      * simpl. by rewrite decompose_all_head.
    + rewrite Forall_forall in IH.
      apply (IH c Hc _ _ _ Hh') in Hd' as (d & Hd & ? & ? & ?).
      exists d. split; [|done].
      apply list_elem_of_bind. exists c. split; [by right|done].
Qed.

Lemma decompose_all_clean_self alts n :
  selector_is_static (Bs4.Sel alts) = true →
  clean alts [] (Bs4.decompose_all alts [] n).
Proof.
  intros Hs d' Hd'.
  apply (decompose_all_survivors alts n [] []) in Hd' as (d & _ & Ha & Hn & Hm);
    [|constructor].
  by rewrite <- (matches_heads alts d d').
Qed.

Lemma decompose_all_clean_other alts alts' n :
  selector_is_static (Bs4.Sel alts) = true →
  clean alts [] n → clean alts [] (Bs4.decompose_all alts' [] n).
Proof.
  intros Hs Hclean d' Hd'.
  apply (decompose_all_survivors alts' n [] []) in Hd' as (d & Hd & Ha & Hn & _);
    [|constructor].
  rewrite <- (matches_heads alts d d') by done. by apply Hclean.
Qed.

Lemma decompose_all_clean_id alts anc n :
  clean alts anc n → Bs4.decompose_all alts anc n = n.
Proof.
  revert anc. induction n as [s|name attrs contents IH] using node_ind_nested;
    intros anc Hclean; [done|].
  rewrite decompose_all_Tag. f_equal.
  set (N := Bs4.Tag name attrs contents) in *.
  assert (∀ c, c ∈ contents →
            Bs4.matches alts (N :: anc, c) = false ∧ clean alts (N :: anc) c) as Hc.
  { intros c Hc. split.
    - apply Hclean. unfold N. rewrite descendants_Tag.
      apply list_elem_of_bind. exists c. split; [left|done].
    - intros d Hd. apply Hclean. unfold N. rewrite descendants_Tag.
      apply list_elem_of_bind. exists c. split; [by right|done]. }
  clearbody N. induction IH as [|c cs Hc1 _ IHcs]; [done|]. simpl.
  destruct (Hc c) as [-> Hcl]; [left|]. simpl.
  rewrite Hc1 by done. f_equal. apply IHcs. intros c' Hc'. apply Hc. by right.
Qed.

Lemma selector_step_clean sel sel' st :
  selector_is_static sel = true →
  (sel = sel' ∨ clean_for sel st.1) →
  clean_for sel (selector_step st sel').1.
Proof.
  intros Hs Hor. destruct sel as [alts|raw]; [|done]. simpl.
  destruct sel' as [alts'|raw']; simpl.
  - destruct Hor as [[= <-]|Hc].
    + by apply decompose_all_clean_self.
    + by apply decompose_all_clean_other.
  - by destruct Hor as [|Hc].
Qed.

Lemma selector_fold_clean S sel st :
  selector_is_static sel = true →
  (sel ∈ S ∨ clean_for sel st.1) →
  clean_for sel (foldl selector_step st S).1.
Proof.
  revert st. induction S as [|s S IH]; intros st Hs Hor; simpl.
  - destruct Hor as [Hin|?]; [|done]. by apply elem_of_nil in Hin.
  - apply IH; [done|].
    destruct Hor as [[->|Hin]%elem_of_cons|Hc].
    + right. apply selector_step_clean; [done|by left].
    + by left.
    + right. apply selector_step_clean; [done|by right].
Qed.

Lemma filter_none {A} (P : A → Prop) `{∀ x, Decision (P x)} (l : list A) :
  (∀ x, x ∈ l → ¬ P x) → filter P l = [].
Proof.
  induction l as [|x l IH]; intros HP; [done|].
  rewrite filter_cons_False by (apply HP; left).
  apply IH. intros y Hy. apply HP. by right.
Qed.

Lemma selector_step_on_clean sel st :
  clean_for sel st.1 → selector_step st sel = st.
Proof.
  destruct sel as [alts|raw]; [|done]. simpl. intros Hc.
  rewrite decompose_all_clean_id by done.
  rewrite filter_none.
  - simpl. rewrite Nat.add_0_r. by destruct st.
  - intros d Hd. rewrite (Hc d Hd). done.
Qed.

Lemma selector_pass_on_clean S st :
  (∀ sel, sel ∈ S → clean_for sel st.1) → foldl selector_step st S = st.
Proof.
  induction S as [|s S IH]; intros Hc; simpl; [done|].
  rewrite selector_step_on_clean by (apply Hc; left).
  apply IH. intros sel Hsel. apply Hc. by right.
Qed.

(** C4 (as amended).  For selectors that test only names and
    attributes of an element and of its ancestors (every selector of the
    catalog is of this kind), and for selectors soupsieve rejects, the
    selector pass is idempotent on the document tree: run on its own
    result it removes nothing and leaves the tree as it is. *)
Theorem selector_pass_idempotent (S : list Bs4.selector) (soup : Bs4.node) :
  Forall (λ sel, selector_is_static sel = true) S →
  selector_pass S (selector_pass S soup).1 = ((selector_pass S soup).1, 0).
Proof.
  intros Hs. unfold selector_pass at 1. apply selector_pass_on_clean.
  intros sel Hsel. simpl. unfold selector_pass.
  apply selector_fold_clean; [|by left].
  rewrite Forall_forall in Hs. by apply Hs.
Qed.

Lemma catalog_selectors_static :
  Forall (λ sel, selector_is_static sel = true)
         (PRESET_FILTERS ≫= (λ entry, selectors entry.2)).
Proof. apply Forall_fold_right. vm_compute. repeat split. Qed.

(** The selectors of the default filter on a page with a footer and an
    advertisement: the first pass removes two elements, the second
    none. *)
Lemma selector_pass_idempotent_witness :
  (selector_pass (compiled_selectors create_default_filter) sample_page).2 = 2
  ∧ selector_pass (compiled_selectors create_default_filter)
      (selector_pass (compiled_selectors create_default_filter) sample_page).1
    = ((selector_pass (compiled_selectors create_default_filter) sample_page).1, 0).
Proof.
  split; [vm_compute; reflexivity|].
  apply (selector_pass_idempotent (compiled_selectors create_default_filter)
           sample_page).
  apply Forall_fold_right. vm_compute. repeat split.
Defined.

(** C4, the claim as stated fails: with the selector [div:empty] the
    first pass over [<div><div></div></div>] removes the inner element,
    which makes the outer one empty, and the second pass removes it. *)
Lemma empty_selector_second_pass_removes :
  Bs4.show div_empty = "div:empty"
  ∧ selector_pass [div_empty] nested_divs
    = (Bs4.BeautifulSoupRoot [Bs4.Tag "div" [] []], 1)
  ∧ (selector_pass [div_empty] (selector_pass [div_empty] nested_divs).1).2 = 1.
Proof. repeat split; vm_compute; reflexivity. Qed.
(** ** The keyword pass: [_filter_by_keywords] *)

Lemma below_nil i : Bs4.below i [] = [].
Proof. done. Qed.











Lemma should_remove_spelled element keyword :
  _should_remove_by_keyword element keyword
  = (Py.len (Py.strip (Bs4.get_text element)) <? 200)
    && Py.contains (Py.lower keyword) (Py.lower (Py.strip (Bs4.get_text element)))
    || Py.contains (Py.lower keyword) (Py.lower (class_names_of element))
    || Py.contains (Py.lower keyword) (Py.lower (element_id_of element)).
Proof.
  unfold _should_remove_by_keyword.
  destruct (_ && _); [done|]. by destruct (_ || _).
Qed.






(** * Further properties *)

(** ** [_compile_selectors] and [_compile_keywords] *)

Lemma foldl_presets {A} (f : Preset → list A) (acc : list A) (enabled : list string) :
  foldl (λ acc filter_name,
           match lookup_preset PRESET_FILTERS filter_name with
           | Some p => acc ++ f p
           | None => acc
           end) acc enabled
  = acc ++ (enabled ≫= (λ filter_name,
                          match lookup_preset PRESET_FILTERS filter_name with
                          | Some p => f p
                          | None => []
                          end)).
Proof.
  revert acc. induction enabled as [|name enabled IH]; intros acc.
  - simpl. by rewrite app_nil_r.
  - cbn [foldl]. rewrite IH, bind_cons.
    destruct (lookup_preset PRESET_FILTERS name); by rewrite <- ?app_assoc.
Qed.

Lemma compile_selectors_unfold enabled custom :
  _compile_selectors enabled custom
  = remove_dups ((enabled ≫= preset_selectors) ++ custom).
Proof. unfold _compile_selectors, list_of_set. by rewrite foldl_presets. Qed.

Lemma compile_keywords_unfold enabled custom :
  _compile_keywords enabled custom
  = remove_dups ((enabled ≫= preset_keywords) ++ custom).
Proof. unfold _compile_keywords, list_of_set. by rewrite foldl_presets. Qed.

(** The compiled rule set of a filter lists every selector and every
    keyword once; it holds exactly the custom entries and the entries
    of the enabled rules that exist in the catalog, so a name that is
    not in the catalog changes nothing. *)
Theorem compiled_rule_set (enabled : list string) (custom_sel : list Bs4.selector)
    (custom_kw : list string) :
  let self := new_filter enabled custom_sel custom_kw in
  NoDup (compiled_selectors self)
  ∧ NoDup (compiled_keywords self)
  ∧ (∀ sel, sel ∈ compiled_selectors self
            ↔ sel ∈ custom_sel
              ∨ ∃ name p, name ∈ enabled
                          ∧ lookup_preset PRESET_FILTERS name = Some p
                          ∧ sel ∈ selectors p)
  ∧ (∀ kw, kw ∈ compiled_keywords self
           ↔ kw ∈ custom_kw
             ∨ ∃ name p, name ∈ enabled
                         ∧ lookup_preset PRESET_FILTERS name = Some p
                         ∧ kw ∈ keywords p)
  ∧ (∀ name before after,
       lookup_preset PRESET_FILTERS name = None →
       enabled = before ++ name :: after →
       self = mkFilter enabled custom_sel custom_kw
                (compiled_selectors (new_filter (before ++ after) custom_sel custom_kw))
                (compiled_keywords (new_filter (before ++ after) custom_sel custom_kw))).
Proof.
  cbv zeta. unfold new_filter at 1 2 3 4 5.
  cbn [compiled_selectors compiled_keywords].
  rewrite compile_selectors_unfold, compile_keywords_unfold.
  split; [apply NoDup_remove_dups|]. split; [apply NoDup_remove_dups|].
  split; [|split].
  - intros sel. rewrite elem_of_remove_dups, elem_of_app, list_elem_of_bind.
    unfold preset_selectors. split.
    + intros [(name & Hsel & Hname)|?]; [|by left]. right.
      destruct (lookup_preset PRESET_FILTERS name) as [p|] eqn:Hp.
      * by exists name, p.
      * by apply elem_of_nil in Hsel.
    + intros [?|(name & p & Hname & Hp & Hsel)]; [by right|]. left.
      exists name. by rewrite Hp.
  - intros kw. rewrite elem_of_remove_dups, elem_of_app, list_elem_of_bind.
    unfold preset_keywords. split.
    + intros [(name & Hkw & Hname)|?]; [|by left]. right.
      destruct (lookup_preset PRESET_FILTERS name) as [p|] eqn:Hp.
      * by exists name, p.
      * by apply elem_of_nil in Hkw.
    + intros [?|(name & p & Hname & Hp & Hkw)]; [by right|]. left.
      exists name. by rewrite Hp.
  - intros name before after Hnone ->. unfold new_filter. f_equal.
    + rewrite !compile_selectors_unfold, !bind_app, bind_cons.
      unfold preset_selectors at 2. by rewrite Hnone.
    + rewrite !compile_keywords_unfold, !bind_app, bind_cons.
      unfold preset_keywords at 2. by rewrite Hnone.
Qed.

(** A filter configured with a misspelt rule name next to [ads]. *)
Lemma compiled_rule_set_witness :
  compiled_selectors (new_filter ["advert"; "ads"] [] [])
  = compiled_selectors (new_filter ["ads"] [] [])
  ∧ compiled_keywords (new_filter ["advert"; "ads"] [] [])
    = compiled_keywords (new_filter ["ads"] [] []).
Proof.
  destruct (compiled_rule_set ["advert"; "ads"] [] []) as (_ & _ & _ & _ & H).
  specialize (H "advert" [] ["ads"] eq_refl eq_refl).
  split.
  - exact (f_equal compiled_selectors H).
  - exact (f_equal compiled_keywords H).
Defined.

(** ** [filter_text]: lines in, lines out *)

Lemma len_app a b : Py.len (a +:+ b) = Py.len a + Py.len b.
Proof.
  induction a as [|c a IH]; [done|].
  rewrite app_String. cbn [Py.len]. rewrite IH.
  by destruct (Py.is_continuation c).
Qed.

Lemma split_no_char c x : Py.has_char c x = false → Py.split c x = [x].
Proof.
  induction x as [|d x IH]; [done|]. simpl.
  destruct (decide (c = d)) as [->|Hne]; [done|]. intros Hx.
  rewrite decide_False by congruence. by rewrite IH.
Qed.

Lemma split_app_sep c x rest :
  Py.has_char c x = false →
  Py.split c (x +:+ String c rest) = x :: Py.split c rest.
Proof.
  induction x as [|d x IH].
  - intros _. change (EmptyString +:+ String c rest) with (String c rest).
    simpl. by rewrite decide_True.
  - rewrite app_String. simpl.
    destruct (decide (c = d)) as [->|Hne]; [done|]. intros Hx.
    rewrite decide_False by congruence. by rewrite IH.
Qed.

Lemma split_parts_no_sep c s x : x ∈ Py.split c s → Py.has_char c x = false.
Proof.
  revert x. induction s as [|d s IH]; intros x; simpl.
  - by intros ->%list_elem_of_singleton.
  - destruct (decide (d = c)) as [->|Hne].
    + intros [->|Hx]%elem_of_cons; [done|]. by apply IH.
    + pose proof (split_not_nil c s) as Hnil.
      destruct (Py.split c s) as [|w ws]; [done|].
      intros [->|Hx]%elem_of_cons.
      * simpl. rewrite decide_False by congruence. apply IH. left.
      * apply IH. by right.
Qed.

Lemma split_join c parts :
  parts ≠ [] →
  (∀ x, x ∈ parts → Py.has_char c x = false) →
  Py.split c (Py.join (String c EmptyString) parts) = parts.
Proof.
  induction parts as [|x parts IH]; [done|]. intros _ Hparts.
  destruct parts as [|y parts].
  - simpl. apply split_no_char, Hparts. left.
  - rewrite join_cons_nonempty by done.
    change (String c EmptyString +:+ ?r) with (String c r).
    rewrite split_app_sep by (apply Hparts; left).
    f_equal. apply IH; [done|]. intros z Hz. apply Hparts. by right.
Qed.

Lemma join_len_cons sep x parts :
  Py.len (Py.join sep parts) ≤ Py.len (Py.join sep (x :: parts)).
Proof.
  destruct parts as [|y parts]; [simpl; lia|].
  rewrite (join_cons_nonempty sep x) by done. rewrite !len_app. lia.
Qed.

Lemma join_len_sublist sep l1 l2 :
  l1 `sublist_of` l2 → Py.len (Py.join sep l1) ≤ Py.len (Py.join sep l2).
Proof.
  induction 1 as [|x l1 l2 Hsub IH|x l1 l2 Hsub IH].
  - done.
  - destruct l1 as [|y l1].
    + destruct l2 as [|z l2]; [done|].
      rewrite (join_cons_nonempty sep x (z :: l2)) by done.
      rewrite len_app. simpl. lia.
    + assert (l2 ≠ []) as Hne.
      { intros ->. by apply sublist_nil_r in Hsub. }
      rewrite !(join_cons_nonempty sep x) by done. rewrite !len_app. lia.
  - etrans; [exact IH|apply join_len_cons].
Qed.

Lemma kept_lines_spec self text_content :
  filter_text self text_content
  = Py.join newline
      (filter (λ line, ¬ line_is_dropped (compiled_keywords self) line)
              (Py.split "010"%char text_content)).
Proof.
  rewrite filter_text_lines. f_equal.
  apply list_filter_iff. intros line. apply line_should_keep_spec.
Qed.

(** [filter_text] only removes lines: its result is the input lines
    that are not dropped, joined again in their order, and it has no
    more characters than the input.  On plain text and plain keywords
    a line is dropped when it has fewer than 100 characters after
    stripping and contains a keyword, ignoring case; a text without
    such a line comes back unchanged. *)
Theorem filter_text_only_removes_lines (self : ContentFilter) (text_content : string) :
  (∃ kept,
     kept `sublist_of` Py.split "010"%char text_content
     ∧ filter_text self text_content = Py.join newline kept)
  ∧ Py.len (filter_text self text_content) ≤ Py.len text_content
  ∧ (Py.is_plain text_content = true →
     Forall (λ kw, Py.is_plain kw = true) (compiled_keywords self) →
     (∀ line, line ∈ Py.split "010"%char text_content →
              ¬ (Py.len (Py.strip line) < 100
                 ∧ ∃ kw, kw ∈ compiled_keywords self
                         ∧ Py.contains (Py.lower kw) (Py.lower line) = true)) →
     filter_text self text_content = text_content).
Proof.
  rewrite kept_lines_spec. split; [|split].
  - exists (filter (λ line, ¬ line_is_dropped (compiled_keywords self) line)
                  (Py.split "010"%char text_content)).
    split; [apply sublist_filter|done].
  - rewrite <- (join_split "010"%char text_content) at 2.
    apply join_len_sublist, sublist_filter.
  - intros _ _ Hall. rewrite filter_all_id; [apply join_split|].
    intros line Hline [Hlen Hex]. apply (Hall line Hline). split; [done|].
    by apply Exists_exists in Hex.
Qed.

(** A Chinese line and an English line, neither with a footer keyword. *)
Lemma filter_text_only_removes_lines_witness :
  filter_text footer_filter ("网站首页的正文内容" +:+ newline +:+ "second line")
  = "网站首页的正文内容" +:+ newline +:+ "second line".
Proof.
  destruct (filter_text_only_removes_lines footer_filter
              ("网站首页的正文内容" +:+ newline +:+ "second line")) as (_ & _ & H).
  apply H.
  - vm_compute. reflexivity.
  - apply Forall_fold_right. vm_compute. repeat split.
  - intros line Hline [_ (kw & Hkw & Hc)].
    vm_compute in Hline.
    apply elem_of_cons in Hline as [->|Hline];
      [|apply elem_of_cons in Hline as [->|Hline]; [|by apply elem_of_nil in Hline]];
      vm_compute in Hkw;
      repeat (apply elem_of_cons in Hkw as [->|Hkw]; [vm_compute in Hc; discriminate Hc|]);
      by apply elem_of_nil in Hkw.
Defined.

(** Filtering a text twice gives the same result as filtering it once. *)
Theorem filter_text_idempotent (self : ContentFilter) (text_content : string) :
  filter_text self (filter_text self text_content) = filter_text self text_content.
Proof.
  rewrite (kept_lines_spec self text_content).
  set (kept := filter _ (Py.split "010"%char text_content)).
  destruct kept as [|x kept'] eqn:Hkept.
  - done.
  - rewrite <- Hkept. rewrite kept_lines_spec.
    rewrite split_join.
    + f_equal. apply filter_all_id. intros line Hline.
      by apply list_elem_of_filter in Hline as [? _].
    + by rewrite Hkept.
    + intros line Hline. apply list_elem_of_filter in Hline as [_ Hline].
      by apply split_parts_no_sep in Hline.
Qed.

(** ** The selector pass: what it removes and what it leaves *)

Lemma descendants_length anc n :
  S (length (Bs4.descendants anc n)) = Bs4.size n.
Proof.
  revert anc. induction n as [s|name attrs contents IH] using node_ind_nested;
    intros anc; [done|].
  rewrite descendants_Tag, size_Tag. f_equal.
  generalize (Bs4.Tag name attrs contents :: anc). intros anc'.
  induction IH as [|c cs Hc _ IHcs]; [done|].
  rewrite bind_cons, length_app, fmap_cons.
  change (sum_list (?x :: ?l)) with (x + sum_list l).
  rewrite <- (Hc anc'). cbn [length].
  apply (f_equal (λ k, S (length (Bs4.descendants anc' c)) + k)). exact IHcs.
Qed.

Lemma decompose_all_size alts anc n :
  Bs4.size (Bs4.decompose_all alts anc n)
  + length (filter (λ d, Bs4.matches alts d = true) (Bs4.descendants anc n))
  ≤ Bs4.size n.
Proof.
  revert anc. induction n as [s|name attrs contents IH] using node_ind_nested;
    intros anc; [simpl; lia|].
  rewrite decompose_all_Tag, descendants_Tag, !size_Tag.
  generalize (Bs4.Tag name attrs contents :: anc). intros anc'.
  cut (sum_list (Bs4.size <$>
                   omap (λ c, if Bs4.matches alts (anc', c) then None
                              else Some (Bs4.decompose_all alts anc' c)) contents)
       + length (filter (λ d, Bs4.matches alts d = true)
                   (contents ≫= (λ c, (anc', c) :: Bs4.descendants anc' c)))
       ≤ sum_list (Bs4.size <$> contents)).
  { intros Hcut. apply le_n_S in Hcut. exact Hcut. }
  induction IH as [|c cs Hc _ IHcs]; [done|].
  rewrite bind_cons, filter_app, length_app, (fmap_cons _ c).
  change (sum_list (?x :: ?l)) with (x + sum_list l).
  specialize (Hc anc'). pose proof (descendants_length anc' c) as Hlen.
  pose proof (length_filter (λ d, Bs4.matches alts d = true)
                (Bs4.descendants anc' c)) as Hf.
  rewrite filter_cons. cbn [omap list_omap].
  destruct (Bs4.matches alts (anc', c)) eqn:Hm.
  - rewrite decide_True by done. cbn [length]. unfold Bs4.located in *. lia.
  - rewrite decide_False by done. rewrite fmap_cons.
    change (sum_list (?x :: ?l)) with (x + sum_list l).
    unfold Bs4.located in *. lia.
Qed.

Lemma selector_step_size st sel :
  Bs4.size (selector_step st sel).1 + (selector_step st sel).2
  ≤ Bs4.size st.1 + st.2.
Proof.
  destruct sel as [alts|raw]; [|done]. simpl.
  pose proof (decompose_all_size alts [] st.1). lia.
Qed.

Lemma selector_step_count_mono st sel : st.2 ≤ (selector_step st sel).2.
Proof. destruct sel as [alts|raw]; [|done]. simpl. lia. Qed.

Lemma selector_step_head st sel : head_of (selector_step st sel).1 = head_of st.1.
Proof. destruct sel as [alts|raw]; [|done]. simpl. apply decompose_all_head. Qed.

Lemma selector_step_same_count st sel :
  (selector_step st sel).2 = st.2 → selector_step st sel = st.
Proof.
  destruct sel as [alts|raw]; [|done]. simpl. intros Hc.
  assert (filter (λ d, Bs4.matches alts d = true) (Bs4.descendants [] st.1) = [])
    as Hnil.
  { apply length_zero_iff_nil. lia. }
  rewrite Hnil. rewrite decompose_all_clean_id.
  - simpl. rewrite Nat.add_0_r. by destruct st.
  - intros d Hd. apply not_true_iff_false. intros Hm.
    assert (d ∈ filter (λ d, Bs4.matches alts d = true) (Bs4.descendants [] st.1))
      as Hin by (by apply list_elem_of_filter).
    rewrite Hnil in Hin. by apply elem_of_nil in Hin.
Qed.

Lemma selector_fold_accounting S st :
  Bs4.size (foldl selector_step st S).1 + (foldl selector_step st S).2
  ≤ Bs4.size st.1 + st.2
  ∧ st.2 ≤ (foldl selector_step st S).2
  ∧ head_of (foldl selector_step st S).1 = head_of st.1
  ∧ ((foldl selector_step st S).2 = st.2 → foldl selector_step st S = st).
Proof.
  revert st. induction S as [|sel S IH]; intros st; simpl.
  - done.
  - destruct (IH (selector_step st sel)) as (H1 & H2 & H3 & H4).
    pose proof (selector_step_size st sel).
    pose proof (selector_step_count_mono st sel).
    split; [lia|]. split; [lia|].
    split; [by rewrite H3, selector_step_head|].
    intros Heq. rewrite H4 by lia. apply selector_step_same_count. lia.
Qed.

(** The selector pass never adds to the document: the root stays, the
    number of nodes goes down by at least [removed_count], and
    [removed_count] is zero exactly when the tree is unchanged. *)
Theorem selector_pass_accounting (S : list Bs4.selector) (soup : Bs4.node) :
  Bs4.size (selector_pass S soup).1 + (selector_pass S soup).2 ≤ Bs4.size soup
  ∧ head_of (selector_pass S soup).1 = head_of soup
  ∧ ((selector_pass S soup).2 = 0 ↔ (selector_pass S soup).1 = soup).
Proof.
  unfold selector_pass.
  destruct (selector_fold_accounting S (soup, 0)) as (H1 & H2 & H3 & H4).
  simpl in *. split; [lia|]. split; [done|]. split.
  - intros H0. by rewrite H4.
  - intros Heq. rewrite Heq in H1. lia.
Qed.

Lemma selector_pass_filter_valid S st :
  foldl selector_step st S
  = foldl selector_step st (filter (λ sel, is_valid_selector sel = true) S).
Proof.
  revert st. induction S as [|sel S IH]; intros st; [done|].
  rewrite filter_cons. destruct sel as [alts|raw].
  - rewrite decide_True by done. simpl. apply IH.
  - rewrite decide_False by done. simpl. apply IH.
Qed.

(** A selector that soupsieve rejects is skipped: the pass gives the
    same tree and the same count as without it, wherever it stands in
    the list. *)
Theorem selector_pass_skips_invalid (S : list Bs4.selector) (soup : Bs4.node) :
  selector_pass S soup
  = selector_pass (filter (λ sel, is_valid_selector sel = true) S) soup.
Proof. apply selector_pass_filter_valid. Qed.

(** After the selector pass no element of the document matches any of
    the name-and-attribute selectors of the list. *)
Theorem selector_pass_leaves_no_match (S : list Bs4.selector) (soup : Bs4.node)
    (sel : Bs4.selector) :
  Forall (λ sel, selector_is_static sel = true) S →
  sel ∈ S →
  is_valid_selector sel = true →
  Bs4.select sel [] (selector_pass S soup).1 = Ok [].
Proof.
  intros Hs Hin Hv. destruct sel as [alts|raw]; [|done].
  assert (clean_for (Bs4.Sel alts) (selector_pass S soup).1) as Hc.
  { unfold selector_pass. apply selector_fold_clean; [|by left].
    rewrite Forall_forall in Hs. by apply Hs. }
  simpl. f_equal. apply filter_none. intros d Hd. simpl in Hc.
  rewrite (Hc d Hd). done.
Qed.

(** The default filter on the sample page: nothing in the result
    matches [footer] any more. *)
Lemma selector_pass_leaves_no_match_witness :
  Bs4.select (Bs4.tag_ "footer") []
    (selector_pass (compiled_selectors create_default_filter) sample_page).1
  = Ok [].
Proof.
  apply (selector_pass_leaves_no_match (compiled_selectors create_default_filter)
           sample_page (Bs4.tag_ "footer")).
  - apply Forall_fold_right. vm_compute. repeat split.
  - vm_compute. left.
  - reflexivity.
Defined.

(** ** The URL checks of the three modules *)

Lemma existsb_snoc {A} (p : A → bool) (l : list A) (x : A) :
  existsb p (l ++ [x]) = existsb p l || p x.
Proof. rewrite existsb_app. simpl. by rewrite orb_false_r. Qed.

(** The extractor, the crawler and the server test a URL in the same
    way, except that the extractor also refuses URLs containing [.ico];
    the server compares with the network location of the URL it is
    given as base, and refuses everything when that base does not
    parse. *)
Theorem validity_checks_agree (self : EnhancedNavigationExtractor)
    (url base : string) :
  _is_valid_internal_url self url
  = WebsiteCrawler._is_valid_url (domain self) url
    && negb (Py.contains ".ico" (Py.lower url))
  ∧ (∀ parsed, Urllib.urlparse base = Ok parsed →
       CrawlerTask._is_valid_url url base
       = WebsiteCrawler._is_valid_url (Urllib.netloc parsed) url)
  ∧ (∀ e, Urllib.urlparse base = Raise e → CrawlerTask._is_valid_url url base = false).
Proof.
  split; [|split].
  - unfold _is_valid_internal_url, WebsiteCrawler._is_valid_url.
    destruct (Urllib.urlparse url) as [parsed|e]; [|done].
    change asset_extensions
      with ([".pdf"; ".jpg"; ".png"; ".gif"; ".css"; ".js"] ++ [".ico"]).
    rewrite existsb_snoc, negb_orb. by rewrite !andb_assoc.
  - intros parsed Hp. unfold CrawlerTask._is_valid_url, WebsiteCrawler._is_valid_url.
    by rewrite Hp.
  - intros e He. unfold CrawlerTask._is_valid_url. by rewrite He.
Qed.

Lemma validity_checks_agree_witness :
  WebsiteCrawler._is_valid_url "example.com" "https://example.com/favicon.ico" = true
  ∧ _is_valid_internal_url example_extractor "https://example.com/favicon.ico" = false
  ∧ CrawlerTask._is_valid_url "https://example.com/docs/" "https://example.com"
    = WebsiteCrawler._is_valid_url "example.com" "https://example.com/docs/"
  ∧ CrawlerTask._is_valid_url "https://example.com/docs/" "//[" = false.
Proof.
  split; [vm_compute; reflexivity|]. split; [|split].
  - destruct (validity_checks_agree example_extractor
                "https://example.com/favicon.ico" EmptyString) as (H & _).
    rewrite H. vm_compute. reflexivity.
  - destruct (validity_checks_agree example_extractor
                "https://example.com/docs/" "https://example.com") as (_ & H & _).
    apply (H (Urllib.mkParse "https" "example.com" EmptyString EmptyString
                EmptyString EmptyString)).
    vm_compute. reflexivity.
  - destruct (validity_checks_agree example_extractor
                "https://example.com/docs/" "//[") as (_ & _ & H).
    eapply H. vm_compute. reflexivity.
Defined.

(** ** [_url_to_filename] *)

Lemma sanitize_safe path c :
  Py.has_char c (WebsiteCrawler.sanitize path) = true →
  Py.has_char c WebsiteCrawler.safe_chars = true.
Proof.
  induction path as [|d path IH]; [done|].
  cbn [WebsiteCrawler.sanitize].
  destruct (Py.is_continuation d); [apply IH|].
  cbn [Py.has_char].
  case_decide as Hc; [|apply IH]. intros _. subst c.
  destruct (Py.has_char d WebsiteCrawler.safe_chars) eqn:Hd; [exact Hd|].
  vm_compute. reflexivity.
Qed.

Lemma len_le_length s : Py.len s ≤ String.length s.
Proof.
  induction s as [|c s IH]; [done|]. cbn [Py.len String.length].
  destruct (Py.is_continuation c); lia.
Qed.

Lemma take_len n s : Py.len (WebsiteCrawler.take n s) ≤ n.
Proof.
  etrans; [apply len_le_length|].
  revert s. induction n as [|n IH]; intros [|c s]; simpl; try lia.
  specialize (IH s). lia.
Qed.

Lemma take_has_char n s c :
  Py.has_char c (WebsiteCrawler.take n s) = true → Py.has_char c s = true.
Proof.
  revert s. induction n as [|n IH]; intros [|d s]; simpl; try done.
  case_decide; [done|]. apply IH.
Qed.

(** The file name made from a URL is never empty, has at most 100
    characters and consists of letters, digits, [-] and [_] only; the
    function fails only when [urlparse] rejects the URL, and then with
    the exception of [urlparse]. *)
Theorem url_to_filename_is_safe (url : string) :
  match WebsiteCrawler._url_to_filename url with
  | Ok filename =>
      filename ≠ EmptyString
      ∧ Py.len filename ≤ 100
      ∧ ∀ c, Py.has_char c filename = true
             → Py.has_char c WebsiteCrawler.safe_chars = true
  | Raise e => Urllib.urlparse url = Raise e
  end.
Proof.
  unfold WebsiteCrawler._url_to_filename.
  destruct (Urllib.urlparse url) as [parsed|e]; [|done]. cbn [mbind result_bind].
  set (stripped := Py.rstrip_by _ _).
  set (path := if Py.is_empty stripped then "index" else stripped).
  set (filename := if 100 <? Py.len (WebsiteCrawler.sanitize path)
                   then WebsiteCrawler.take 100 (WebsiteCrawler.sanitize path)
                   else WebsiteCrawler.sanitize path).
  destruct (Py.is_empty filename) eqn:He.
  - split; [done|]. split; [vm_compute; lia|].
    intros c Hc. cbn [Py.has_char] in Hc.
    repeat (destruct (decide (c = _)) as [->|?]; [vm_compute; reflexivity|]). done.
  - split; [by apply is_empty_false|]. split.
    + unfold filename.
      destruct (Nat.ltb_spec 100 (Py.len (WebsiteCrawler.sanitize path))).
      * apply take_len.
      * lia.
    + intros c. unfold filename. destruct (100 <? _).
      * intros Hc%take_has_char. by apply sanitize_safe in Hc.
      * apply sanitize_safe.
Qed.

(** ** [_deduplicate_links]: nothing distinct is lost *)

Lemma dedup_from_key_set seen links :
  key_set (dedup_from seen links) ∪ seen = key_set links ∪ seen.
Proof.
  revert seen. induction links as [|l links IH]; intros seen; [done|].
  cbn [dedup_from]. unfold key_set in *. case_decide as Hl.
  - rewrite IH. rewrite fmap_cons. cbn [list_to_set].
    generalize (list_to_set (link_key <$> links) : gset string). intros B.
    apply set_eq. intros x. rewrite !elem_of_union, elem_of_singleton.
    split; [tauto|]. intros [[->|?]|?]; tauto.
  - rewrite !fmap_cons. cbn [list_to_set].
    specialize (IH ({[link_key l]} ∪ seen)). revert IH.
    generalize (list_to_set (link_key <$> links) : gset string).
    generalize (list_to_set (link_key <$> dedup_from ({[link_key l]} ∪ seen) links)
                : gset string).
    intros A B IH. apply set_eq. intros x.
    assert (Hx := proj1 (set_eq _ _) IH x).
    rewrite !elem_of_union in Hx. rewrite !elem_of_union. tauto.
Qed.

Lemma dedup_elem_of_input links e : e ∈ _deduplicate_links links → e ∈ links.
Proof.
  rewrite deduplicate_links_unfold. intros He.
  eapply elem_of_sublist; [exact He|apply dedup_from_sublist].
Qed.

Lemma dedup_nil_iff links : _deduplicate_links links = [] ↔ links = [].
Proof.
  rewrite deduplicate_links_unfold. split; [|by intros ->].
  destruct links as [|l links]; [done|]. simpl.
  rewrite decide_False by set_solver. done.
Qed.

(** Deduplication keeps one entry for every key of the input and adds
    none: the set of keys is unchanged, every output entry is an input
    entry, the output is no longer than the input, and it is empty only
    for an empty input. *)
Theorem deduplicate_links_keeps_every_key (links : list LinkInfo) :
  key_set (_deduplicate_links links) = key_set links
  ∧ (∀ e, e ∈ _deduplicate_links links → e ∈ links)
  ∧ length (_deduplicate_links links) ≤ length links
  ∧ (_deduplicate_links links = [] ↔ links = []).
Proof.
  split; [|split; [|split]].
  - rewrite deduplicate_links_unfold.
    pose proof (dedup_from_key_set ∅ links) as H. revert H.
    generalize (key_set (dedup_from ∅ links)), (key_set links).
    intros A B H. by rewrite !(right_id_L ∅ (∪)) in H.
  - apply dedup_elem_of_input.
  - rewrite deduplicate_links_unfold. apply sublist_length, dedup_from_sublist.
  - apply dedup_nil_iff.
Qed.

(** ** [_build_navigation_structure]: one item per link *)

Lemma filter_level_split (links : list LinkInfo) (k : nat) (ks : list nat) :
  k ∉ ks →
  filter (λ e, level e ∈ k :: ks) links
  ≡ₚ filter (λ e, level e = k) links ++ filter (λ e, level e ∈ ks) links.
Proof.
  intros Hk. induction links as [|e links IH]; [done|].
  rewrite !filter_cons.
  destruct (decide (level e = k)) as [Heq|Hne].
  - rewrite decide_True by (rewrite Heq; left).
    rewrite decide_False by (rewrite Heq; done).
    simpl. by rewrite IH.
  - destruct (decide (level e ∈ ks)) as [Hin|Hnin].
    + rewrite decide_True by (by right).
      rewrite IH. by rewrite Permutation_middle.
    + rewrite decide_False; [done|].
      intros [?|?]%elem_of_cons; done.
Qed.

Lemma blocks_permutation (links : list LinkInfo) (keys : list nat) :
  NoDup keys →
  keys ≫= (λ lvl, structure_item lvl <$> filter (λ e, level e = lvl) links)
  ≡ₚ (λ e, structure_item (level e) e) <$> filter (λ e, level e ∈ keys) links.
Proof.
  induction 1 as [|k keys Hk Hnd IH].
  - rewrite (filter_none (λ e, level e ∈ [])); [done|].
    intros e _ He. by apply elem_of_nil in He.
  - assert (structure_item k <$> filter (λ e, level e = k) links
            = (λ e, structure_item (level e) e) <$> filter (λ e, level e = k) links)
      as Hk'.
    { apply list_fmap_ext. intros i e He.
      apply list_elem_of_lookup_2, list_elem_of_filter in He as [-> _]. done. }
    rewrite bind_cons, IH, (filter_level_split links k keys Hk), fmap_app, Hk'.
    done.
Qed.

Lemma build_structure_perm links :
  _build_navigation_structure links
  ≡ₚ (λ e, structure_item (level e) e) <$> links.
Proof.
  rewrite build_navigation_structure_blocks.
  rewrite blocks_permutation by apply sorted_keys_NoDup.
  rewrite filter_all_id; [done|].
  intros e He. apply sorted_keys_elem. by exists e.
Qed.

Lemma build_structure_length links :
  length (_build_navigation_structure links) = length links.
Proof. rewrite build_structure_perm. by rewrite length_fmap. Qed.

(** The structure has exactly one item for every link it is built
    from: it is a rearrangement of the links' items, each carrying the
    text, URL, level and parent text of its link and the type
    [navigation]. *)
Theorem build_navigation_structure_permutation (links : list LinkInfo) :
  _build_navigation_structure links
  ≡ₚ (λ e, mkItem (text e) (url e) (level e) (parent_text e) "navigation") <$> links
  ∧ length (_build_navigation_structure links) = length links.
Proof. split; [apply build_structure_perm|apply build_structure_length]. Qed.

(** A nested link before a top-level one: both are in the structure,
    each with its own text, URL, level and parent text. *)
Lemma build_navigation_structure_permutation_witness :
  _build_navigation_structure [docs_link_nested; docs_link_other]
  ≡ₚ [ mkItem "Docs" "https://example.com/docs/" 2 (Some "Guides") "navigation";
       mkItem "Docs" "https://example.com/docs/v2" 0 None "navigation" ]
  ∧ _build_navigation_structure [docs_link_nested; docs_link_other]
    = [ mkItem "Docs" "https://example.com/docs/v2" 0 None "navigation";
        mkItem "Docs" "https://example.com/docs/" 2 (Some "Guides") "navigation" ].
Proof.
  split.
  - exact (proj1 (build_navigation_structure_permutation
                    [docs_link_nested; docs_link_other])).
  - vm_compute. reflexivity.
Defined.

(** ** [_extract_nav_element_info]: when it raises *)

Lemma extract_link_passes self nav page_url acc link :
  match extract_link self nav page_url acc link with
  | Ok _ => anchor_passes page_url link = true
  | Raise _ => anchor_passes page_url link = false
  end.
Proof.
  unfold extract_link, anchor_passes.
  destruct (Bs4.get link.2 "href") as [[href_|l]|]; [| |done].
  - destruct (negb (Py.is_empty href_) && negb (Py.is_empty (Bs4.get_text_strip link.2)));
      [|done].
    destruct (Urllib.urljoin page_url href_) as [u|e]; [|done].
    cbn [mbind result_bind]. by destruct (_is_valid_internal_url self u).
  - by destruct (_ && _ && _).
Qed.

Lemma extract_links_total self nav page_url anchors acc :
  (∃ r, for_each (extract_link self nav page_url) anchors acc = Ok r)
  ↔ ∀ link, link ∈ anchors → anchor_passes page_url link = true.
Proof.
  revert acc. induction anchors as [|a anchors IH]; intros acc.
  - split; [|by eexists]. intros _ link Hl. by apply elem_of_nil in Hl.
  - rewrite for_each_cons.
    pose proof (extract_link_passes self nav page_url acc a) as Ha.
    destruct (extract_link self nav page_url acc a) as [acc'|e];
      cbn [mbind result_bind].
    + rewrite IH. split.
      * intros Hall link [->|Hl]%elem_of_cons; [done|by apply Hall].
      * intros Hall link Hl. apply Hall. by right.
    + split; [by intros [r Hr]|]. intros Hall.
      rewrite Hall in Ha by left. done.
Qed.

Lemma nav_element_info_returns_iff_aux self nav_element page_url selector :
  (∃ info, _extract_nav_element_info self nav_element page_url selector = Ok info)
  ↔ ∀ link, link ∈ Bs4.find_all_a_href nav_element.1 nav_element.2 →
            anchor_passes page_url link = true.
Proof.
  rewrite <- (extract_links_total self nav_element.2 page_url _ []).
  unfold _extract_nav_element_info.
  destruct (for_each _ _ []) as [links|e]; cbn [mbind result_bind].
  - split; [by eexists|]. intros _. by eexists.
  - split; [by intros [? ?]|by intros [? ?]].
Qed.

Lemma bad_anchor_fails page_url link href_ e :
  Bs4.get link.2 "href" = Some (AttrStr href_) →
  href_ ≠ EmptyString →
  Bs4.get_text_strip link.2 ≠ EmptyString →
  Urllib.urljoin page_url href_ = Raise e →
  anchor_passes page_url link = false.
Proof.
  intros Hget Hh%is_empty_false Ht%is_empty_false He.
  unfold anchor_passes. by rewrite Hget, Hh, Ht, He.
Qed.

(** One anchor with a text and an href that [urljoin] rejects makes
    [_extract_nav_element_info] raise, wherever the anchor stands in
    the element and whatever the other anchors are: the links collected
    before it are lost. *)
Theorem nav_element_info_raises_on_bad_href (self : EnhancedNavigationExtractor)
    (nav_element : Bs4.located) (page_url selector : string)
    (link : Bs4.located) (href_ : string) (e : exception) :
  link ∈ Bs4.find_all_a_href nav_element.1 nav_element.2 →
  Bs4.get link.2 "href" = Some (AttrStr href_) →
  href_ ≠ EmptyString →
  Bs4.get_text_strip link.2 ≠ EmptyString →
  Bs4.text_is_plain link = true →
  Urllib.urljoin page_url href_ = Raise e →
  ∃ e', _extract_nav_element_info self nav_element page_url selector = Raise e'.
Proof.
  intros Hlink Hget Hh Ht _ He.
  pose proof (bad_anchor_fails page_url link href_ e Hget Hh Ht He) as Hfail.
  destruct (_extract_nav_element_info self nav_element page_url selector)
    as [info|e'] eqn:Hinfo; [|by eexists].
  exfalso.
  assert (anchor_passes page_url link = true) as Hpass.
  { apply (proj1 (nav_element_info_returns_iff_aux self nav_element page_url selector));
      [by eexists|done]. }
  congruence.
Qed.

(** The second anchor of the bar has the href [//[]; the first one is
    fine. *)
Lemma nav_element_info_raises_on_bad_href_witness :
  ∃ e', _extract_nav_element_info example_extractor ([broken_soup], broken_nav)
          "https://example.com/welcome" "nav" = Raise e'.
Proof.
  apply (nav_element_info_raises_on_bad_href example_extractor
           ([broken_soup], broken_nav) "https://example.com/welcome" "nav"
           broken_anchor "//[" (ValueError "Invalid IPv6 URL")).
  - vm_compute. apply list_elem_of_In. right. left. reflexivity.
  - reflexivity.
  - discriminate.
  - vm_compute. discriminate.
  - vm_compute. reflexivity.
  - vm_compute. reflexivity.
Defined.

(** ** [extract_navigation_from_html]: invariants of the result *)

Lemma extract_navigation_from_soup_fields self soup page_url data :
  extract_navigation_from_soup self soup page_url = Ok data →
  ∃ infos,
    Forall2 (λ se info,
               _extract_nav_element_info self se.2 page_url (Bs4.show se.1) = Ok info)
            (scan_order self soup) infos
    ∧ found_navigations data = keep_candidates infos
    ∧ primary_navigation data = head (keep_candidates infos)
    ∧ all_nav_links data
      = _deduplicate_links (concat (nav_links <$> found_navigations data))
    ∧ navigation_structure data = _build_navigation_structure (all_nav_links data).
Proof.
  unfold extract_navigation_from_soup.
  destruct (for_each _ (nav_selectors self) ([], None)) as [st|e] eqn:Hl;
    cbn [mbind result_bind]; [|done].
  apply scan_selector_loop in Hl as (infos & HF & H1 & H2).
  cbn [fst snd] in H1, H2. rewrite app_nil_l in H1.
  intros [= <-]. cbn [found_navigations primary_navigation all_nav_links
                       navigation_structure].
  exists infos. by rewrite H1, H2.
Qed.

Lemma elem_of_concat {A} (x : A) (ls : list (list A)) :
  x ∈ concat ls ↔ ∃ l, x ∈ l ∧ l ∈ ls.
Proof.
  induction ls as [|l ls IH]; simpl.
  - split; [by intros ?%elem_of_nil|]. intros (l & _ & Hl). by apply elem_of_nil in Hl.
  - rewrite elem_of_app, IH. split.
    + intros [?|(l' & ? & ?)]; [exists l; split; [done|left]|].
      exists l'. split; [done|by right].
    + intros (l' & Hx & [->|Hl]%elem_of_cons); [by left|]. right. by exists l'.
Qed.

Lemma concat_nil_keep infos :
  concat (nav_links <$> keep_candidates infos) = [] → keep_candidates infos = [].
Proof.
  destruct (keep_candidates infos) as [|info rest] eqn:Hk; [done|].
  assert (info ∈ keep_candidates infos) as Hin by (rewrite Hk; left).
  apply list_elem_of_filter in Hin as [Hne _].
  rewrite fmap_cons. simpl. intros [? _]%app_eq_nil. done.
Qed.

Lemma all_nav_links_entry self soup page_url data e :
  extract_navigation_from_soup self soup page_url = Ok data →
  e ∈ all_nav_links data →
  _is_valid_internal_url self (url e) = true
  ∧ text e ≠ EmptyString
  ∧ href e ≠ EmptyString
  ∧ Urllib.urljoin page_url (href e) = Ok (url e)
  ∧ ∃ info, info ∈ found_navigations data ∧ e ∈ nav_links info.
Proof.
  intros (infos & HF & Hfound & Hprim & Hall & Hstruct)%extract_navigation_from_soup_fields He.
  rewrite Hall in He. apply dedup_elem_of_input in He.
  apply elem_of_concat in He as (links & He & Hlinks).
  apply list_elem_of_fmap in Hlinks as (info & -> & Hinfo).
  assert (info ∈ infos) as Hin.
  { rewrite Hfound in Hinfo. by apply list_elem_of_filter in Hinfo as [_ ?]. }
  apply list_elem_of_lookup in Hin as [i Hi].
  destruct (Forall2_lookup_r _ _ _ _ _ HF Hi) as (se & _ & Hse).
  apply extract_nav_element_info_ok in Hse as [_ Hlinks].
  assert (He2 := He). rewrite Hlinks in He2.
  apply list_elem_of_omap in He2 as (link & _ & He').
  apply link_entry_Some in He' as (h & u & _ & Hh & Ht & Hj & Hv & ->).
  cbn [url text href link_info]. repeat (split; [done|]).
  by exists info.
Qed.

(** Every link of a page result comes from a kept candidate, has a
    non-empty text and href, a URL that is its href resolved against
    the page URL, and passes the validity check; no two links share a
    key, the structure has one item per link, and the result has a
    primary candidate exactly when it has a link at all. *)
Theorem page_result_invariants (self : EnhancedNavigationExtractor)
    (soup : Bs4.node) (page_url : string) (data : NavigationData) :
  extract_navigation_from_soup self soup page_url = Ok data →
  (∀ e, e ∈ all_nav_links data →
     _is_valid_internal_url self (url e) = true
     ∧ text e ≠ EmptyString
     ∧ href e ≠ EmptyString
     ∧ Urllib.urljoin page_url (href e) = Ok (url e)
     ∧ ∃ info, info ∈ found_navigations data ∧ e ∈ nav_links info)
  ∧ NoDup (link_key <$> all_nav_links data)
  ∧ length (navigation_structure data) = length (all_nav_links data)
  ∧ (primary_navigation data = None ↔ all_nav_links data = [])
  ∧ (found_navigations data = [] ↔ all_nav_links data = []).
Proof.
  intros Hdata.
  pose proof Hdata
    as (infos & HF & Hfound & Hprim & Hall & Hstruct)%extract_navigation_from_soup_fields.
  split; [|split; [|split; [|split]]].
  - intros e He. by apply (all_nav_links_entry self soup page_url).
  - rewrite Hall, deduplicate_links_unfold. apply dedup_from_NoDup.
  - rewrite Hstruct. apply build_structure_length.
  - rewrite Hprim, Hall, dedup_nil_iff, Hfound, head_None. split.
    + by intros ->.
    + apply concat_nil_keep.
  - rewrite Hall, dedup_nil_iff, Hfound. split.
    + by intros ->.
    + apply concat_nil_keep.
Qed.

Lemma page_result_invariants_witness :
  match extract_navigation_from_soup example_extractor
          (Bs4.BeautifulSoupRoot [mixed_nav]) "https://example.com/welcome" with
  | Ok data =>
      (∀ e, e ∈ all_nav_links data →
            _is_valid_internal_url example_extractor (url e) = true)
      ∧ length (navigation_structure data) = length (all_nav_links data)
  | Raise _ => False
  end.
Proof.
  pose proof (page_result_invariants example_extractor
                (Bs4.BeautifulSoupRoot [mixed_nav]) "https://example.com/welcome") as H.
  destruct (extract_navigation_from_soup example_extractor
              (Bs4.BeautifulSoupRoot [mixed_nav]) "https://example.com/welcome")
    as [data|e] eqn:E.
  - destruct (H data eq_refl) as (H1 & _ & H3 & _).
    split; [|exact H3]. intros e He. by apply H1.
  - vm_compute in E. discriminate E.
Defined.

(** ** Loops that stop at the first exception *)

Lemma for_each_total {A S} (body : S → A → result S) (ok : A → Prop)
    (xs : list A) (acc : S) :
  (∀ s x, (∃ s', body s x = Ok s') ↔ ok x) →
  (∃ r, for_each body xs acc = Ok r) ↔ ∀ x, x ∈ xs → ok x.
Proof.
  intros Hbody. revert acc. induction xs as [|x xs IH]; intros acc.
  - split; [|by eexists]. intros _ y Hy. by apply elem_of_nil in Hy.
  - rewrite for_each_cons. destruct (body acc x) as [acc'|e] eqn:Hx;
      cbn [mbind result_bind].
    + rewrite IH. split.
      * intros Hall y [->|Hy]%elem_of_cons; [|by apply Hall].
        apply (Hbody acc). by eexists.
      * intros Hall y Hy. apply Hall. by right.
    + split; [by intros [? ?]|]. intros Hall.
      assert (ok x) as Hok by (apply Hall; left).
      apply (Hbody acc) in Hok as [s' Hs']. congruence.
Qed.

Lemma for_each_first_failure {A S} (body : S → A → result S)
    (pre : list A) (x : A) (post : list A) (acc : S) (e : exception) :
  (∀ s, body s x = Raise e) →
  (∀ y, y ∈ pre → ∀ s, ∃ s', body s y = Ok s') →
  for_each body (pre ++ x :: post) acc = Raise e.
Proof.
  intros Hx. revert acc. induction pre as [|y pre IH]; intros acc Hpre.
  - simpl. by rewrite Hx.
  - rewrite <- app_comm_cons, for_each_cons.
    destruct (Hpre y (ltac:(left)) acc) as [s' ->]. cbn [mbind result_bind].
    apply IH. intros z Hz. apply Hpre. by right.
Qed.

(** ** [extract_navigation_from_html]: when it returns *)

Lemma select_ok_iff sel anc n :
  (∃ els, Bs4.select sel anc n = Ok els) ↔ is_valid_selector sel = true.
Proof.
  destruct sel as [alts|raw]; simpl.
  - split; [done|]. intros _. by eexists.
  - split; [by intros [? ?]|done].
Qed.

Lemma scan_element_returns_iff self page_url sel st el :
  (∃ st', scan_element self page_url sel st el = Ok st')
  ↔ ∃ info, _extract_nav_element_info self el page_url (Bs4.show sel) = Ok info.
Proof.
  unfold scan_element.
  destruct (_extract_nav_element_info self el page_url (Bs4.show sel)) as [info|e];
    cbn [mbind result_bind].
  - split; [by eexists|]. intros _. case_bool_decide; by eexists.
  - split; by intros [? ?].
Qed.

Lemma scan_selector_returns_iff self soup page_url st sel :
  (∃ st', scan_selector self soup page_url st sel = Ok st')
  ↔ is_valid_selector sel = true
    ∧ ∀ se, se ∈ scan_order_of [sel] soup →
        ∀ link, link ∈ Bs4.find_all_a_href se.2.1 se.2.2 →
                anchor_passes page_url link = true.
Proof.
  unfold scan_selector, scan_order_of. rewrite bind_cons, app_nil_r.
  destruct (Bs4.select sel [] soup) as [els|e] eqn:Hsel; cbn [mbind result_bind].
  - assert (is_valid_selector sel = true) as Hv.
    { apply (select_ok_iff sel [] soup). by eexists. }
    rewrite (for_each_total _
               (λ el, ∀ link, link ∈ Bs4.find_all_a_href el.1 el.2 →
                              anchor_passes page_url link = true)).
    + split.
      * intros Hall. split; [done|]. intros se (el & -> & Hel)%list_elem_of_fmap.
        by apply Hall.
      * intros [_ Hall] el Hel. apply (Hall (sel, el)).
        apply list_elem_of_fmap. by exists el.
    + intros s el. rewrite scan_element_returns_iff.
      apply nav_element_info_returns_iff_aux.
  - split; [by intros [? ?]|]. intros [Hv _].
    apply (select_ok_iff sel [] soup) in Hv as [els Hels]. congruence.
Qed.

Lemma scan_order_of_elem sels soup se :
  se ∈ scan_order_of sels soup ↔ ∃ sel, sel ∈ sels ∧ se ∈ scan_order_of [sel] soup.
Proof.
  unfold scan_order_of. rewrite list_elem_of_bind. split.
  - intros (sel & Hse & Hsel). exists sel. split; [done|].
    by rewrite bind_cons, app_nil_r.
  - intros (sel & Hsel & Hse). exists sel. rewrite bind_cons, app_nil_r in Hse. done.
Qed.

Lemma soup_extraction_returns_iff (self : EnhancedNavigationExtractor)
    (soup : Bs4.node) (page_url : string) :
  (∃ data, extract_navigation_from_soup self soup page_url = Ok data)
  ↔ (∀ sel, sel ∈ nav_selectors self → is_valid_selector sel = true)
    ∧ (∀ se, se ∈ scan_order self soup →
         ∀ link, link ∈ Bs4.find_all_a_href se.2.1 se.2.2 →
                 anchor_passes page_url link = true).
Proof.
  unfold extract_navigation_from_soup, scan_order.
  pose proof (for_each_total (scan_selector self soup page_url)
                (λ sel, is_valid_selector sel = true
                        ∧ ∀ se, se ∈ scan_order_of [sel] soup →
                            ∀ link, link ∈ Bs4.find_all_a_href se.2.1 se.2.2 →
                                    anchor_passes page_url link = true)
                (nav_selectors self) ([], None)
                (λ s x, scan_selector_returns_iff self soup page_url s x)) as Hloop.
  destruct (for_each _ (nav_selectors self) ([], None)) as [st|e];
    cbn [mbind result_bind].
  - split; [|intros _; by eexists]. intros _.
    destruct Hloop as [Hloop _]. specialize (Hloop (ltac:(by eexists))).
    split.
    + intros sel Hsel. by apply Hloop.
    + intros se (sel & Hsel & Hse)%scan_order_of_elem. by apply (Hloop sel Hsel).
  - split; [by intros [? ?]|]. intros [Hv Hall].
    destruct Hloop as [_ Hloop]. destruct Hloop as [? ?]; [|done].
    intros sel Hsel. split; [by apply Hv|].
    intros se Hse. apply Hall. apply scan_order_of_elem. by exists sel.
Qed.

(** One anchor with a text and an href that [urljoin] rejects, under
    any element that any navigation selector matches, makes the
    extraction of the whole page raise: no navigation of that page is
    returned, the well-formed ones included. *)
Theorem extraction_raises_on_bad_href (self : EnhancedNavigationExtractor)
    (soup : Bs4.node) (page_url : string)
    (se : Bs4.selector * Bs4.located) (link : Bs4.located)
    (href_ : string) (e : exception) :
  se ∈ scan_order self soup →
  link ∈ Bs4.find_all_a_href se.2.1 se.2.2 →
  Bs4.get link.2 "href" = Some (AttrStr href_) →
  href_ ≠ EmptyString →
  Bs4.get_text_strip link.2 ≠ EmptyString →
  Bs4.text_is_plain link = true →
  Urllib.urljoin page_url href_ = Raise e →
  ∃ e', extract_navigation_from_soup self soup page_url = Raise e'.
Proof.
  intros Hse Hlink Hget Hh Ht _ He.
  pose proof (bad_anchor_fails page_url link href_ e Hget Hh Ht He) as Hfail.
  destruct (extract_navigation_from_soup self soup page_url) as [data|e'] eqn:Hd;
    [|by eexists].
  exfalso.
  destruct (proj1 (soup_extraction_returns_iff self soup page_url)) as [_ Hall];
    [by eexists|].
  rewrite (Hall se Hse link Hlink) in Hfail. done.
Qed.

(** A page whose navigation bar has a good anchor and one with the
    href [//[]. *)
Lemma extraction_raises_on_bad_href_witness :
  ∃ e', extract_navigation_from_soup example_extractor broken_soup
          "https://example.com/welcome" = Raise e'.
Proof.
  apply (extraction_raises_on_bad_href example_extractor broken_soup
           "https://example.com/welcome"
           (Bs4.tag_ "nav", ([broken_soup], broken_nav))
           broken_anchor "//[" (ValueError "Invalid IPv6 URL")).
  - vm_compute. apply list_elem_of_In. left. reflexivity.
  - vm_compute. apply list_elem_of_In. right. left. reflexivity.
  - reflexivity.
  - discriminate.
  - vm_compute. discriminate.
  - vm_compute. reflexivity.
  - vm_compute. reflexivity.
Defined.

Lemma scan_nothing self soup page_url sels st :
  (∀ sel, sel ∈ sels → Bs4.select sel [] soup = Ok []) →
  for_each (scan_selector self soup page_url) sels st = Ok st.
Proof.
  induction sels as [|sel sels IH]; intros Hnone; [done|].
  assert (scan_selector self soup page_url st sel = Ok st) as Hsel.
  { unfold scan_selector. rewrite Hnone by left. done. }
  rewrite for_each_cons, Hsel. cbn [mbind result_bind].
  apply IH. intros s Hs. apply Hnone. by right.
Qed.

(** A page on which no navigation selector matches anything gives the
    empty result: no candidates, no primary candidate, no links and an
    empty structure. *)
Theorem page_without_navigation (self : EnhancedNavigationExtractor)
    (soup : Bs4.node) (page_url : string) :
  (∀ sel, sel ∈ nav_selectors self → Bs4.select sel [] soup = Ok []) →
  extract_navigation_from_soup self soup page_url = Ok (mkNavData [] None [] []).
Proof.
  intros Hnone. unfold extract_navigation_from_soup.
  rewrite scan_nothing by done. cbn [mbind result_bind fst snd].
  vm_compute. reflexivity.
Qed.

(** The sample page has a header, a main part, a footer and an
    advertisement, and nothing any of the 19 selectors matches. *)
Lemma page_without_navigation_witness :
  extract_navigation_from_soup example_extractor sample_page
    "https://example.com/welcome"
  = Ok (mkNavData [] None [] []).
Proof.
  apply page_without_navigation.
  apply Forall_forall. apply Forall_fold_right. vm_compute. repeat split.
Defined.
(** ** [enhance_navigation_extraction]: counters, validity, failures *)

Lemma crawl_result_page parser self cr page_nav :
  extract_navigation_from_crawl_result parser self cr = Ok page_nav →
  pn_url page_nav = cr_url cr
  ∧ (Py.is_empty (cr_cleaned_html cr) = true → enhanced_navigation page_nav = None)
  ∧ ∀ data, enhanced_navigation page_nav = Some data →
      ∃ soup, parser (cr_cleaned_html cr) = Ok soup
              ∧ extract_navigation_from_soup self soup (cr_url cr) = Ok data.
Proof.
  unfold extract_navigation_from_crawl_result, extract_navigation_from_html.
  destruct (Py.is_empty (cr_cleaned_html cr)).
  - intros [= <-]. cbn [pn_url enhanced_navigation]. by repeat split.
  - destruct (parser (cr_cleaned_html cr)) as [soup|e]; cbn [mbind result_bind]; [|done].
    destruct (extract_navigation_from_soup self soup (cr_url cr)) as [d|e] eqn:Hd;
      cbn [mbind result_bind]; [|done].
    intros [= <-]. cbn [pn_url enhanced_navigation]. split; [done|]. split; [done|].
    intros data [= <-]. by exists soup.
Qed.

Lemma aggregate_page_spec page_nav pages count all_links :
  aggregate_page page_nav (pages, count, all_links)
  = (pages ++ [page_nav],
     count + length (filter has_navigation [page_nav]),
     all_links ++ page_links page_nav).
Proof.
  unfold aggregate_page. rewrite filter_cons, filter_nil.
  destruct (decide (has_navigation page_nav)) as [Hn|Hn]; cbn [length];
    unfold has_navigation, page_links in Hn; unfold page_links;
    destruct (enhanced_navigation page_nav) as [nav|].
  - rewrite bool_decide_eq_true_2 by done. by rewrite Nat.add_1_r.
  - done.
  - rewrite bool_decide_eq_false_2 by done.
    apply dec_stable in Hn. by rewrite Hn, Nat.add_0_r, app_nil_r.
  - by rewrite Nat.add_0_r, app_nil_r.
Qed.

Lemma aggregate_loop_full parser extractor crawl_results pages count all_links st :
  for_each (λ st result,
              page_nav ← extract_navigation_from_crawl_result parser extractor result;
              Ok (aggregate_page page_nav st))
           crawl_results (pages, count, all_links) = Ok st →
  ∃ new_pages,
    st = (pages ++ new_pages,
          count + length (filter has_navigation new_pages),
          all_links ++ concat (page_links <$> new_pages))
    ∧ Forall2 (λ cr page_nav,
                 extract_navigation_from_crawl_result parser extractor cr = Ok page_nav)
              crawl_results new_pages.
Proof.
  revert pages count all_links.
  induction crawl_results as [|cr rest IH]; intros pages count all_links.
  - intros [= <-]. exists []. cbn [filter list_filter length fmap list_fmap concat].
    by rewrite !app_nil_r, Nat.add_0_r.
  - rewrite for_each_cons.
    destruct (extract_navigation_from_crawl_result parser extractor cr)
      as [page_nav|e] eqn:Hp; cbn [mbind result_bind]; [|done].
    rewrite aggregate_page_spec.
    intros (new_pages & -> & HF)%IH.
    exists (page_nav :: new_pages). split; [|by constructor].
    rewrite fmap_cons. cbn [concat].
    rewrite (filter_app _ [page_nav] new_pages), length_app.
    by rewrite <- !app_assoc, Nat.add_assoc.
Qed.

Lemma concat_page_links_nil pages :
  concat (page_links <$> pages) = [] ↔ filter has_navigation pages = [].
Proof.
  induction pages as [|p pages IH]; [done|].
  rewrite fmap_cons, filter_cons. cbn [concat]. unfold has_navigation at 1.
  destruct (decide (page_links p ≠ [])) as [Hne|Heq].
  - split; [|done]. by intros [? _]%app_eq_nil.
  - apply dec_stable in Heq. rewrite Heq, app_nil_l. done.
Qed.

(** The site result records the base URL and the number of crawl
    results, has one page entry per crawl result, counts exactly the
    pages that have a link, has no link exactly when that count is 0,
    has one structure item per link, and every link is one that some
    page contributed and that passes the validity check for the base
    URL's domain. *)
Theorem site_result_invariants (parser : string → result Bs4.node)
    (crawl_results : list CrawlResult) (base : string) (r : EnhancedResults) :
  enhance_navigation_extraction parser crawl_results base = Ok r →
  er_base_url r = base
  ∧ total_pages r = length crawl_results
  ∧ length (page_navigations r) = length crawl_results
  ∧ pages_with_navigation r = length (filter has_navigation (page_navigations r))
  ∧ pages_with_navigation r ≤ total_pages r
  ∧ (pages_with_navigation r = 0 ↔ unique_navigation_links r = [])
  ∧ length (er_navigation_structure r) = length (unique_navigation_links r)
  ∧ ∃ extractor,
      new_extractor base = Ok extractor
      ∧ ∀ e, e ∈ unique_navigation_links r →
          _is_valid_internal_url extractor (url e) = true
          ∧ ∃ page_nav, page_nav ∈ page_navigations r ∧ e ∈ page_links page_nav.
Proof.
  unfold enhance_navigation_extraction.
  destruct (new_extractor base) as [extractor|e] eqn:Hex; cbn [mbind result_bind]; [|done].
  destruct (for_each _ crawl_results ([], 0, [])) as [st|e] eqn:Hloop;
    cbn [mbind result_bind]; [|done].
  apply aggregate_loop_full in Hloop as (pages & -> & HF).
  rewrite !app_nil_l, Nat.add_0_l.
  intros [= <-].
  cbn [aggregate er_base_url total_pages page_navigations pages_with_navigation
       unique_navigation_links er_navigation_structure].
  assert (length pages = length crawl_results) as Hlen.
  { symmetry. by eapply Forall2_length. }
  split; [done|]. split; [done|]. split; [done|]. split; [done|].
  split; [|split; [|split]].
  - rewrite <- Hlen. apply sublist_length, sublist_filter.
  - rewrite dedup_nil_iff, concat_page_links_nil. apply length_zero_iff_nil.
  - apply build_structure_length.
  - exists extractor. split; [done|].
    intros e He. apply dedup_elem_of_input in He.
    apply elem_of_concat in He as (links & He & Hlinks).
    apply list_elem_of_fmap in Hlinks as (page_nav & -> & Hpage).
    split; [|by exists page_nav].
    apply list_elem_of_lookup in Hpage as [i Hi].
    destruct (Forall2_lookup_r _ _ _ _ _ HF Hi) as (cr & _ & Hcr).
    apply crawl_result_page in Hcr as (_ & _ & Hdata).
    unfold page_links in He.
    destruct (enhanced_navigation page_nav) as [data|]; [|by apply elem_of_nil in He].
    destruct (Hdata data eq_refl) as (soup & _ & Hsoup).
    by destruct (all_nav_links_entry _ _ _ _ _ Hsoup He) as [? _].
Qed.

(** Two pages with the same navigation bar: both count, two links. *)
Lemma site_result_invariants_witness :
  match enhance_navigation_extraction (constant_parser welcome_soup) two_pages
          "https://docs.example.com" with
  | Ok r =>
      total_pages r = 2
      ∧ pages_with_navigation r = length (filter has_navigation (page_navigations r))
      ∧ length (er_navigation_structure r) = length (unique_navigation_links r)
  | Raise _ => False
  end.
Proof.
  pose proof (site_result_invariants (constant_parser welcome_soup) two_pages
                "https://docs.example.com") as H.
  destruct (enhance_navigation_extraction (constant_parser welcome_soup) two_pages
              "https://docs.example.com") as [r|e] eqn:E.
  - destruct (H r eq_refl) as (_ & H2 & _ & H4 & _ & _ & H7 & _).
    split; [exact H2|]. split; [exact H4|exact H7].
  - vm_compute in E. discriminate E.
Defined.

Lemma for_each_raise_split {A S} (body : S → A → result S) (xs : list A) (acc : S)
    (e : exception) :
  for_each body xs acc = Raise e →
  ∃ pre x post s,
    xs = pre ++ x :: post
    ∧ for_each body pre acc = Ok s
    ∧ body s x = Raise e.
Proof.
  revert acc. induction xs as [|x xs IH]; intros acc; [done|].
  rewrite for_each_cons. destruct (body acc x) as [acc'|e'] eqn:Hx;
    cbn [mbind result_bind].
  - intros (pre & y & post & s & -> & Hpre & Hy)%IH.
    exists (x :: pre), y, post, s. split; [done|]. split; [|done].
    by rewrite for_each_cons, Hx.
  - intros [= ->]. exists [], x, xs, acc. done.
Qed.

(** The aggregation has no handler: it raises exactly when the base URL
    does not parse, or when some page fails while all pages before it
    succeed, and then with that page's exception; the results of the
    pages before it are lost. *)
Theorem site_aggregation_raises_iff (parser : string → result Bs4.node)
    (crawl_results : list CrawlResult) (base : string) (e : exception) :
  enhance_navigation_extraction parser crawl_results base = Raise e
  ↔ new_extractor base = Raise e
    ∨ ∃ extractor pre cr post,
        new_extractor base = Ok extractor
        ∧ crawl_results = pre ++ cr :: post
        ∧ (∀ c, c ∈ pre →
             ∃ page_nav, extract_navigation_from_crawl_result parser extractor c
                         = Ok page_nav)
        ∧ extract_navigation_from_crawl_result parser extractor cr = Raise e.
Proof.
  unfold enhance_navigation_extraction.
  destruct (new_extractor base) as [extractor|e0]; cbn [mbind result_bind].
  - split.
    + destruct (for_each _ crawl_results ([], 0, [])) as [st|e1] eqn:Hloop;
        cbn [mbind result_bind]; [done|]. intros [= ->].
      apply for_each_raise_split in Hloop as (pre & cr & post & s & -> & Hpre & Hcr).
      right. exists extractor, pre, cr, post. split; [done|]. split; [done|]. split.
      * apply (for_each_total
                 (λ (st : list PageNavigation * nat * list LinkInfo) result,
                    page_nav ← extract_navigation_from_crawl_result parser extractor result;
                    Ok (aggregate_page page_nav st))
                 (λ c, ∃ page_nav,
                    extract_navigation_from_crawl_result parser extractor c = Ok page_nav)
                 pre ([], 0, [])); [|by eexists].
        intros s0 c.
        destruct (extract_navigation_from_crawl_result parser extractor c);
          cbn [mbind result_bind]; split; intros [? ?]; by eauto.
      * destruct (extract_navigation_from_crawl_result parser extractor cr);
          cbn [mbind result_bind] in Hcr; [done|]. by injection Hcr as ->.
    + intros [?|(ex & pre & cr & post & [= <-] & -> & Hpre & Hcr)]; [done|].
      rewrite (for_each_first_failure
                 (λ (st : list PageNavigation * nat * list LinkInfo) result,
                    page_nav ← extract_navigation_from_crawl_result parser extractor result;
                    Ok (aggregate_page page_nav st))
                 pre cr post ([], 0, []) e); [done| |].
      * intros s. by rewrite Hcr.
      * intros c Hc s. destruct (Hpre c Hc) as [page_nav ->]. by eexists.
  - split.
    + intros [= ->]. by left.
    + intros [[= ->]|(ex & _ & _ & _ & ? & _)]; done.
Qed.
